(** * Gramine regression harness: [python/graminelibos/regression.py]

    A shallow embedding of [RegressionTestCase]: the supervised launch of a
    child process ([run_binary], [run_native_binary]), the forwarding of its
    output ([print_output]) and the [expect_returncode] assertion helper.

    The operating system is an oracle (record [World]); the effects of the
    harness are recorded, in program order, in a log of [Event]s; Python
    exceptions are the [Raise] outcomes of a small writer-and-error monad. *)

From Stdlib Require Import ZArith Lia List.
From Stdlib.Strings Require Import Byte.
From stdpp Require Import base gmap strings list pretty.

Local Open Scope Z_scope.

(** ** Python [bytes] and [str], and the UTF-8 codec used by [bytes.decode] *)

Module Utf8.

(** A [bytes] object. *)
Definition bytes := list byte.

(** A [str] object: its code points.  Lone surrogates may occur, as they do
    in Python after a [surrogateescape] decoding. *)
Definition pystr := list Z.

Definition ord (b : byte) : Z := Z.of_N (Byte.to_N b).

Definition chr8 (z : Z) : byte :=
  match Byte.of_N (Z.to_N z) with
  | Some b => b
  | None => x00
  end.

Definition in_range (lo hi v : Z) : bool := (lo <=? v) && (v <=? hi).

(** One well-formed UTF-8 sequence at the head of the input, with the rest
    of the input.  Overlong forms, surrogates and values above U+10FFFF are
    rejected through the bounds on the second byte. *)
Definition decode_one (bs : bytes) : option (Z * bytes) :=
  match bs with
  | [] => None
  | b0 :: r0 =>
    let v0 := ord b0 in
    if v0 <? 0x80 then Some (v0, r0)
    else if in_range 0xC2 0xDF v0 then
      match r0 with
      | b1 :: r1 =>
        let v1 := ord b1 in
        if in_range 0x80 0xBF v1
        then Some ((v0 - 0xC0) * 64 + (v1 - 0x80), r1)
        else None
      | _ => None
      end
    else if in_range 0xE0 0xEF v0 then
      match r0 with
      | b1 :: b2 :: r2 =>
        let v1 := ord b1 in
        let v2 := ord b2 in
        if in_range (if v0 =? 0xE0 then 0xA0 else 0x80)
                    (if v0 =? 0xED then 0x9F else 0xBF) v1
           && in_range 0x80 0xBF v2
        then Some ((v0 - 0xE0) * 4096 + (v1 - 0x80) * 64 + (v2 - 0x80), r2)
        else None
      | _ => None
      end
    else if in_range 0xF0 0xF4 v0 then
      match r0 with
      | b1 :: b2 :: b3 :: r3 =>
        let v1 := ord b1 in
        let v2 := ord b2 in
        let v3 := ord b3 in
        if in_range (if v0 =? 0xF0 then 0x90 else 0x80)
                    (if v0 =? 0xF4 then 0x8F else 0xBF) v1
           && in_range 0x80 0xBF v2
           && in_range 0x80 0xBF v3
        then Some ((v0 - 0xF0) * 262144 + (v1 - 0x80) * 4096
                   + (v2 - 0x80) * 64 + (v3 - 0x80), r3)
        else None
      | _ => None
      end
    else None
  end.

(** [bs.decode()]: UTF-8 with [errors='strict'].  [None] stands for
    [UnicodeDecodeError].  Every step consumes at least one byte, so a fuel
    of [length bs] is never exhausted ([decode_fuel_enough]). *)
Fixpoint decode_fuel (fuel : nat) (bs : bytes) : option pystr :=
  match bs with
  | [] => Some []
  | _ :: _ =>
    match fuel with
    | O => None
    | S fuel' =>
      match decode_one bs with
      | Some (cp, rest) =>
        match decode_fuel fuel' rest with
        | Some s => Some (cp :: s)
        | None => None
        end
      | None => None
      end
    end
  end.

Definition decode (bs : bytes) : option pystr := decode_fuel (length bs) bs.

(** [bs.decode(errors='surrogateescape')]: a byte that does not start a
    well-formed sequence becomes the lone surrogate U+DC00 + byte and
    decoding resumes at the next byte.  (CPython escapes the whole invalid
    prefix at once; its bytes after the first are continuation bytes, which
    are escaped one by one here with the same result.) *)
Fixpoint decode_surrogateescape_fuel (fuel : nat) (bs : bytes) : pystr :=
  match bs with
  | [] => []
  | b0 :: r0 =>
    match fuel with
    | O => []
    | S fuel' =>
      match decode_one bs with
      | Some (cp, rest) => cp :: decode_surrogateescape_fuel fuel' rest
      | None => (0xDC00 + ord b0) :: decode_surrogateescape_fuel fuel' r0
      end
    end
  end.

Definition decode_surrogateescape (bs : bytes) : pystr :=
  decode_surrogateescape_fuel (length bs) bs.

(** The UTF-8 form of one code point. *)
Definition encode_one (cp : Z) : bytes :=
  if cp <? 0x80 then [chr8 cp]
  else if cp <? 0x800 then
    [chr8 (0xC0 + cp / 64); chr8 (0x80 + cp mod 64)]
  else if cp <? 0x10000 then
    [chr8 (0xE0 + cp / 4096); chr8 (0x80 + (cp / 64) mod 64);
     chr8 (0x80 + cp mod 64)]
  else
    [chr8 (0xF0 + cp / 262144); chr8 (0x80 + (cp / 4096) mod 64);
     chr8 (0x80 + (cp / 64) mod 64); chr8 (0x80 + cp mod 64)].

(** Unicode scalar values: code points that are not surrogates. *)
Definition is_scalar (cp : Z) : bool :=
  in_range 0 0xD7FF cp || in_range 0xE000 0x10FFFF cp.

Definition encode_one_strict (cp : Z) : option bytes :=
  if is_scalar cp then Some (encode_one cp) else None.


Fixpoint encode_with (enc : Z -> option bytes) (s : pystr) : option bytes :=
  match s with
  | [] => Some []
  | cp :: s' =>
    match enc cp, encode_with enc s' with
    | Some b, Some bs => Some (b ++ bs)
    | _, _ => None
    end
  end.

(** [s.encode()] and [s.encode(errors='surrogateescape')]; [None] stands
    for [UnicodeEncodeError]. *)
Definition encode : pystr -> option bytes := encode_with encode_one_strict.

End Utf8.

Import Utf8.

(** ** The environment of the harness *)

(** A [pathlib.Path]: [root] is "/" for an absolute path and empty for a
    relative one; [names] are the components below it. *)
Record Path := mkPath { root : string; names : list string }.

(** [p / name], for a [name] that is one relative component. *)
Definition path_div (p : Path) (name : string) : Path :=
  {| root := root p; names := names p ++ [name] |}.

(** [os.fspath(p)], which is [str(p)] for a path object; ['{}'.format(p)]
    gives the same text. *)
Definition fspath (p : Path) : string :=
  match names p with
  | [] => if String.eqb (root p) "" then "." else root p
  | _ :: _ => root p +:+ String.concat "/" (names p)
  end.

(** [p / rel], for a relative [rel] given by its components:
    [p / 'a/b'] is [path_div_all p ["a"; "b"]]. *)
Definition path_div_all (p : Path) (rel : list string) : Path :=
  fold_left path_div rel p.

(** Values passed to [subprocess.Popen] by keyword. *)
Inductive KwVal :=
| PIPE                                  (* subprocess.PIPE *)
| os_setpgrp                            (* the function os.setpgrp *)
| EnvMap (env : gmap string string)     (* an environment mapping *)
| Other (repr : string).                (* any other object *)

Inductive Signal := SIGTERM | SIGKILL.

(** What [process.communicate(timeout=t)] does: it returns the two captured
    streams, after which [process.returncode] is set, or it raises
    [subprocess.TimeoutExpired]. *)
Inductive CommResult :=
| Exited (stdout stderr : bytes) (returncode : Z)
| TimeoutExpired.

(** A started child: its process id and its behaviour under a bounded
    wait. *)
Record Process := mkProcess {
  pid : Z;
  communicate : Z -> CommResult
}.

(** The error handler of a text stream: [Strict] raises on text that the
    encoding cannot hold; [Tolerant] stands for every handler that writes
    something instead (replace, backslashreplace, surrogateescape). *)
Inductive ErrorHandler := Strict | Tolerant.

(** The operating system, the interpreter and the installation, as seen by
    one call.  [environ] is [os.environ] at the time of the call and
    [import_environ] what it was when the module was imported.
    [CONFIG_PKGLIBDIR] is [pathlib.Path(graminelibos._CONFIG_PKGLIBDIR)], a
    constant of the package that the module imports; [popen] answers a
    process creation with a child or with the [errno] of an [OSError].
    [sys_stdout] and [sys_stderr] are the error handlers of the two
    streams of the harness, which are UTF-8 text streams.
    [TypeError_text callee kwds] is the text of the [TypeError] that the
    interpreter raises when a call of [callee] with the keywords [kwds] of
    the caller repeats a keyword; it names the callee and one repeated
    keyword. *)
Record World := mkWorld {
  environ : gmap string string;
  import_environ : gmap string string;
  CONFIG_PKGLIBDIR : Path;
  path_exists : Path -> bool;
  popen : list string -> gmap string KwVal -> Z + Process;
  sys_stdout : ErrorHandler;
  sys_stderr : ErrorHandler;
  TypeError_text : string -> gmap string KwVal -> string
}.

(** ** Exceptions, effects and the monad of the harness

    Conventions of the model.  Timeouts are whole seconds (Python [int]).
    A bounded wait either returns both streams or times out.  [os.killpg]
    on the child's own group succeeds.  A [write] on [sys.stdout] or
    [sys.stderr] fails only by [UnicodeEncodeError].  The exceptions are
    those that the modelled code raises or lets through. *)

Inductive PyExc :=
| AssertionError (msg : string)
| ValueError (msg : string)
| TypeError (msg : string)
| OSError (errno : Z)
| UnicodeDecodeError (object : bytes)
| CalledProcessError (returncode : Z) (cmd : list string)
                     (output stderr : bytes)
| UnicodeEncodeError (object : pystr).

Inductive Started := Child (pid : Z) | Refused (errno : Z).

(** The observable steps of a call, each with the answer it received. *)
Inductive Event :=
| EvPopen (argv : list string) (kwargs : gmap string KwVal) (res : Started)
| EvCommunicate (pid : Z) (timeout : Z) (res : CommResult)
| EvKillpg (pgid : Z) (sig : Signal)
| EvStdoutWrite (text : pystr)
| EvStderrWrite (text : pystr)
| EvPopenExit (pid : Z).

Inductive Outcome (A : Type) :=
| Return (a : A)
| Raise (e : PyExc).
Arguments Return {A} a.
Arguments Raise {A} e.

(** A computation: the events it performed, in order, and how it ended. *)
Definition M (A : Type) : Type := list Event * Outcome A.

Definition ret {A} (a : A) : M A := ([], Return a).

Definition bind {A B} (m : M A) (k : A -> M B) : M B :=
  match m with
  | (t, Return a) => (t ++ fst (k a), snd (k a))
  | (t, Raise e) => (t, Raise e)
  end.

Definition emit (ev : Event) : M unit := ([ev], Return tt).

Definition raise {A} (e : PyExc) : M A := ([], Raise e).

(** [try: m  finally: cleanup], for a cleanup that does not raise. *)
Definition finally {A} (m : M A) (cleanup : list Event) : M A :=
  (fst m ++ cleanup, snd m).

(** [try: m  except ...: handler]; the handler answers [None] for an
    exception that no [except] clause matches. *)
Definition try_except {A} (m : M A) (handler : PyExc -> option (M A)) : M A :=
  match m with
  | (t, Return a) => (t, Return a)
  | (t, Raise e) =>
    match handler e with
    | Some h => (t ++ fst h, snd h)
    | None => (t, Raise e)
    end
  end.

Notation "x <- m ;; k" := (bind m (fun x => k))
  (at level 100, m at next level, right associativity).
Notation "m ;;; k" := (bind m (fun _ => k))
  (at level 100, right associativity).

Definition events {A} (m : M A) : list Event := fst m.
Definition outcome {A} (m : M A) : Outcome A := snd m.

(** ** The Python library as the harness uses it *)

(** The builtin [max(a, b)] on integers: [b] only when it is greater. *)
Definition py_max (a b : Z) : Z := if a <? b then b else a.

(** [unittest.TestCase.fail(msg)] *)
Definition fail {A} (msg : string) : M A := raise (AssertionError msg).

(** [unittest.TestCase.assertEqual(first, second, msg)] on integers, with
    the default [longMessage = True]. *)
Definition assertEqual (first second : Z) (msg : string) : M unit :=
  if first =? second then ret tt
  else raise (AssertionError
                (pretty first +:+ " != " +:+ pretty second +:+ " : " +:+ msg)).

(** [bs.decode()] as a step of the harness. *)
Definition bytes_decode (bs : bytes) : M pystr :=
  match decode bs with
  | Some s => ret s
  | None => raise (UnicodeDecodeError bs)
  end.

(** The call [subprocess.Popen(argv, k1=v1, ..., **kwds)].  A key of [kwds]
    that repeats an explicit keyword is a [TypeError] of the call itself,
    with the text of the interpreter; otherwise the operating system
    answers. *)
Definition Popen (w : World) (argv : list string)
    (explicit : list (string * KwVal)) (kwds : gmap string KwVal) : M Process :=
  if existsb (fun kv => bool_decide (is_Some (kwds !! kv.1))) explicit
  then raise (TypeError (TypeError_text w "subprocess.Popen" kwds))
  else
    let kwargs := list_to_map explicit ∪ kwds in
    match popen w argv kwargs with
    | inr p => emit (EvPopen argv kwargs (Child (pid p)));;; ret p
    | inl errno => emit (EvPopen argv kwargs (Refused errno));;; raise (OSError errno)
    end.

(** [process.communicate(timeout=timeout)].  The [TimeoutExpired] answer is
    the exception of that name; the callers match on it where the source
    has [try ... except subprocess.TimeoutExpired]. *)
Definition process_communicate (p : Process) (timeout : Z) : M CommResult :=
  emit (EvCommunicate (pid p) timeout (communicate p timeout));;;
  ret (communicate p timeout).

(** [with ... as process: body]: on the way out, normal or not, [Popen]
    closes the pipes and waits for the child. *)
Definition with_process {A} (p : Process) (body : M A) : M A :=
  finally body [EvPopenExit (pid p)].

(** A [str] literal of ASCII characters. *)
Definition py_str (s : string) : pystr := map ord (String.list_byte_of_string s).

(** [hay.startswith(needle)] *)
Fixpoint str_startswith (needle hay : pystr) : bool :=
  match needle, hay with
  | [], _ => true
  | _ :: _, [] => false
  | n :: needle', h :: hay' => (n =? h) && str_startswith needle' hay'
  end.

(** [needle in hay] on [str]: the substring test. *)
Fixpoint str_contains (needle hay : pystr) : bool :=
  str_startswith needle hay ||
  match hay with
  | [] => false
  | _ :: hay' => str_contains needle hay'
  end.

(** How a helper that reports with exceptions of [subprocess.run] ends.
    The [CalledProcessError] of [subprocess.run(..., check=True,
    stdout=PIPE)] has the captured [stdout] as its output and [None] as its
    [stderr], which is not captured. *)
Inductive Probe (A : Type) :=
| ProbeReturn (a : A)
| ProbeOSError (errno : Z)
| ProbeCalledProcessError (returncode : Z) (cmd : list string) (output : bytes)
| ProbeUnicodeDecodeError (object : bytes).
Arguments ProbeReturn {A} a.
Arguments ProbeOSError {A} errno.
Arguments ProbeCalledProcessError {A} returncode cmd output.
Arguments ProbeUnicodeDecodeError {A} object.

(** Whether [stream.write(text)] returns on a UTF-8 stream with the error
    handler [errors]: a strict stream cannot hold a lone surrogate. *)
Definition write_ok (errors : ErrorHandler) (text : pystr) : bool :=
  match errors with
  | Tolerant => true
  | Strict => forallb is_scalar text
  end.

(** [stream.write(text)], for [sys.stdout] and [sys.stderr]: the text is
    encoded as a whole before any of it is written. *)
Definition stream_write (errors : ErrorHandler) (written : pystr -> Event)
    (text : pystr) : M unit :=
  if write_ok errors text then emit (written text)
  else raise (UnicodeEncodeError text).

(** ** [regression.py] *)

(** [HAS_SGX = os.environ.get('SGX') == '1'], evaluated once, when the
    module is imported. *)
Definition HAS_SGX (w : World) : bool :=
  bool_decide (import_environ w !! "SGX" = Some "1").

Module RegressionTestCase.

(** [DEFAULT_TIMEOUT = (20 if HAS_SGX else 10)], a class attribute: fixed
    at import as well. *)
Definition DEFAULT_TIMEOUT (w : World) : Z := if HAS_SGX w then 20 else 10.

Definition get_env (w : World) (name : string) : M string :=
  match environ w !! name with
  | Some value => ret value
  | None => fail ("environment variable " +:+ name +:+ " not set")
  end.

Definition pal_path (w : World) : Path :=
  path_div (CONFIG_PKGLIBDIR w) (if HAS_SGX w then "sgx" else "direct").

Definition libpal_path (w : World) : Path := path_div (pal_path w) "libpal.so".

Definition loader_path (w : World) : Path := path_div (pal_path w) "loader".

(** [has_debug].  [run argv] is the answer of the operating system to
    [subprocess.run(argv, check=True, stdout=subprocess.PIPE)]: the [errno]
    of an [OSError], or the exit status and the captured [stdout]. *)
Definition has_debug (run : list string -> Z + Z * bytes) (w : World)
    : Probe bool :=
  let argv := ["objdump"; "-x"; fspath (libpal_path w)] in
  match run argv with
  | inl errno => ProbeOSError errno
  | inr (returncode, stdout) =>
    if returncode =? 0 then
      match decode stdout with
      | Some dump => ProbeReturn (str_contains (py_str ".debug_info") dump)
      | None => ProbeUnicodeDecodeError stdout
      end
    else ProbeCalledProcessError returncode argv stdout
  end.

Definition print_output (w : World) (stdout stderr : bytes) : M unit :=
  stream_write (sys_stdout w) EvStdoutWrite (decode_surrogateescape stdout);;;
  stream_write (sys_stderr w) EvStderrWrite (decode_surrogateescape stderr).

Definition run_binary (w : World) (args : list string) (timeout : option Z)
    (prefix : option (list string)) (kwds : gmap string KwVal)
    : M (pystr * pystr) :=
  let timeout :=
    match timeout with
    | Some t => py_max (DEFAULT_TIMEOUT w) t
    | None => DEFAULT_TIMEOUT w
    end in
  (if path_exists w (loader_path w) then ret tt
   else fail ("loader (" +:+ fspath (loader_path w) +:+ ") not found"));;;
  (if path_exists w (libpal_path w) then ret tt
   else fail ("libpal (" +:+ fspath (libpal_path w) +:+ ") not found"));;;
  let prefix := match prefix with Some p => p | None => [] end in
  captured <-
    (process <- Popen w
        (prefix ++ [fspath (loader_path w); fspath (libpal_path w); "init"]
                ++ args)
        [("stdout", PIPE); ("stderr", PIPE); ("preexec_fn", os_setpgrp)]
        kwds;;
     with_process process
       (res <- process_communicate process timeout;;
        match res with
        | TimeoutExpired =>
          emit (EvKillpg (pid process) SIGKILL);;;
          fail ("timeout (" +:+ pretty timeout +:+ " s) expired")
        | Exited stdout stderr returncode =>
          print_output w stdout stderr;;;
          if returncode =? 0 then ret (stdout, stderr)
          else raise (CalledProcessError returncode args stdout stderr)
        end));;
  out <- bytes_decode captured.1;;
  err <- bytes_decode captured.2;;
  ret (out, err).

Definition run_native_binary (w : World) (args : list string)
    (timeout : option Z) (libpath : option string) (kwds : gmap string KwVal)
    : M (pystr * pystr) :=
  let timeout :=
    match timeout with
    | Some t => py_max (DEFAULT_TIMEOUT w) t
    | None => DEFAULT_TIMEOUT w
    end in
  let my_env :=
    match libpath with
    | Some l => <["LD_LIBRARY_PATH" := l]> (environ w)
    | None => environ w
    end in
  captured <-
    (process <- Popen w args
        [("stdout", PIPE); ("stderr", PIPE); ("env", EnvMap my_env);
         ("preexec_fn", os_setpgrp)]
        kwds;;
     with_process process
       (res <- process_communicate process timeout;;
        match res with
        | TimeoutExpired =>
          emit (EvKillpg (pid process) SIGKILL);;;
          raise (AssertionError ("timeout (" +:+ pretty timeout +:+ " s) expired"))
        | Exited stdout stderr returncode =>
          print_output w stdout stderr;;;
          if returncode =? 0 then ret (stdout, stderr)
          else raise (CalledProcessError returncode args stdout stderr)
        end));;
  out <- bytes_decode captured.1;;
  err <- bytes_decode captured.2;;
  ret (out, err).

(** [run_gdb(args, gdb_script, **kwds)].  The source hands [**kwds] on to
    [run_binary], which binds the key [timeout] to its own parameter: here
    [timeout] is that entry (absent or [None]: [None]) and [kwds] holds the
    other keys.  A key [prefix] or [env] in [kwds] repeats a keyword of the
    call of [run_binary], which is a [TypeError] of that call. *)
Definition run_gdb (w : World) (args : list string) (gdb_script : string)
    (timeout : option Z) (kwds : gmap string KwVal) : M (pystr * pystr) :=
  let prefix := ["gdb"; "-q"] in
  let env := environ w in
  let '(prefix, env) :=
    if HAS_SGX w then
      let prefix :=
        prefix ++ ["-x"; fspath (path_div_all (pal_path w)
                                   ["gdb_integration"; "gramine_sgx_gdb.py"])] in
      let sgx_gdb :=
        fspath (path_div_all (pal_path w) ["gdb_integration"; "sgx_gdb.so"]) in
      (prefix,
       <["LD_PRELOAD" := sgx_gdb +:+ ":" +:+ default "" (env !! "LD_PRELOAD")]> env)
    else
      (prefix ++ ["-x"; fspath (path_div_all (pal_path w)
                                  ["gdb_integration"; "gramine_linux_gdb.py"])],
       env) in
  let prefix := prefix ++ ["-x"; gdb_script; "-batch"; "-tty=/dev/null"] in
  let prefix := prefix ++ ["--args"] in
  if bool_decide (is_Some (kwds !! "prefix"))
     || bool_decide (is_Some (kwds !! "env"))
  then raise (TypeError (TypeError_text w "RegressionTestCase.run_binary" kwds))
  else run_binary w args timeout (Some prefix) (<["env" := EnvMap env]> kwds).

(** [with self.expect_returncode(returncode): body].  The generator runs up
    to its [yield] before the body starts; what the body raises is raised
    at the [yield], inside the [try]. *)
Definition expect_returncode {A} (returncode : Z) (body : M A) : M unit :=
  if returncode =? 0
  then raise (ValueError "expected returncode should be nonzero")
  else
    try_except
      (body;;;
       fail ("did not fail (expected " +:+ pretty returncode +:+ ")"))
      (fun exc =>
         match exc with
         | CalledProcessError e_returncode _ _ _ =>
           Some (assertEqual e_returncode returncode
                   ("failed with returncode " +:+ pretty e_returncode
                    +:+ " (expected " +:+ pretty returncode +:+ ")"))
         | _ => None
         end).

End RegressionTestCase.

Import RegressionTestCase.

(** The two supervised entry points under one name. *)
Inductive Call :=
| RunBinary (args : list string) (timeout : option Z)
            (prefix : option (list string)) (kwds : gmap string KwVal)
| RunNativeBinary (args : list string) (timeout : option Z)
                  (libpath : option string) (kwds : gmap string KwVal).

Definition invoke (w : World) (c : Call) : M (pystr * pystr) :=
  match c with
  | RunBinary args timeout prefix kwds => run_binary w args timeout prefix kwds
  | RunNativeBinary args timeout libpath kwds =>
    run_native_binary w args timeout libpath kwds
  end.

Definition call_args (c : Call) : list string :=
  match c with
  | RunBinary args _ _ _ => args
  | RunNativeBinary args _ _ _ => args
  end.

Definition call_timeout (c : Call) : option Z :=
  match c with
  | RunBinary _ timeout _ _ => timeout
  | RunNativeBinary _ timeout _ _ => timeout
  end.

(** ** The runs of a supervised call *)

(** The explicit keywords of both [Popen] calls connect the two streams to
    pipes and make the child the leader of a new process group. *)
Definition piped_group_leader (kwargs : gmap string KwVal) : Prop :=
  kwargs !! "stdout" = Some PIPE /\
  kwargs !! "stderr" = Some PIPE /\
  kwargs !! "preexec_fn" = Some os_setpgrp.

(** What the caller gets once the child has exited with status 0. *)
Definition decoded (stdout stderr : bytes) : Outcome (pystr * pystr) :=
  match decode stdout with
  | None => Raise (UnicodeDecodeError stdout)
  | Some out =>
    match decode stderr with
    | None => Raise (UnicodeDecodeError stderr)
    | Some err => Return (out, err)
    end
  end.

Definition timeout_message (T : Z) : string :=
  "timeout (" +:+ pretty T +:+ " s) expired".

(** The possible runs of a call with arguments [args], argument vector
    [argv] and bound [T], under the error handlers [hout] and [herr] of
    [sys.stdout] and [sys.stderr]: it stops before any process is created,
    the creation is refused, the wait times out, a write of the captured
    output fails, or the child's exit is reported. *)
Inductive Supervision (args argv : list string) (T : Z)
    (hout herr : ErrorHandler) : M (pystr * pystr) -> Prop :=
| sup_precondition (msg : string) :
    Supervision args argv T hout herr ([], Raise (AssertionError msg))
| sup_bad_call (msg : string) :
    Supervision args argv T hout herr ([], Raise (TypeError msg))
| sup_refused (kw : gmap string KwVal) (errno : Z) :
    Supervision args argv T hout herr
      ([EvPopen argv kw (Refused errno)], Raise (OSError errno))
| sup_timeout (kw : gmap string KwVal) (p : Z) :
    piped_group_leader kw ->
    Supervision args argv T hout herr
      ([EvPopen argv kw (Child p); EvCommunicate p T TimeoutExpired;
        EvKillpg p SIGKILL; EvPopenExit p],
       Raise (AssertionError (timeout_message T)))
| sup_stdout_unwritable (kw : gmap string KwVal) (p : Z)
    (stdout stderr : bytes) (returncode : Z) :
    piped_group_leader kw ->
    write_ok hout (decode_surrogateescape stdout) = false ->
    Supervision args argv T hout herr
      ([EvPopen argv kw (Child p);
        EvCommunicate p T (Exited stdout stderr returncode);
        EvPopenExit p],
       Raise (UnicodeEncodeError (decode_surrogateescape stdout)))
| sup_stderr_unwritable (kw : gmap string KwVal) (p : Z)
    (stdout stderr : bytes) (returncode : Z) :
    piped_group_leader kw ->
    write_ok hout (decode_surrogateescape stdout) = true ->
    write_ok herr (decode_surrogateescape stderr) = false ->
    Supervision args argv T hout herr
      ([EvPopen argv kw (Child p);
        EvCommunicate p T (Exited stdout stderr returncode);
        EvStdoutWrite (decode_surrogateescape stdout);
        EvPopenExit p],
       Raise (UnicodeEncodeError (decode_surrogateescape stderr)))
| sup_failed (kw : gmap string KwVal) (p : Z)
    (stdout stderr : bytes) (returncode : Z) :
    piped_group_leader kw ->
    write_ok hout (decode_surrogateescape stdout) = true ->
    write_ok herr (decode_surrogateescape stderr) = true ->
    returncode <> 0 ->
    Supervision args argv T hout herr
      ([EvPopen argv kw (Child p);
        EvCommunicate p T (Exited stdout stderr returncode);
        EvStdoutWrite (decode_surrogateescape stdout);
        EvStderrWrite (decode_surrogateescape stderr);
        EvPopenExit p],
       Raise (CalledProcessError returncode args stdout stderr))
| sup_exited (kw : gmap string KwVal) (p : Z) (stdout stderr : bytes) :
    piped_group_leader kw ->
    write_ok hout (decode_surrogateescape stdout) = true ->
    write_ok herr (decode_surrogateescape stderr) = true ->
    Supervision args argv T hout herr
      ([EvPopen argv kw (Child p);
        EvCommunicate p T (Exited stdout stderr 0);
        EvStdoutWrite (decode_surrogateescape stdout);
        EvStderrWrite (decode_surrogateescape stderr);
        EvPopenExit p],
       decoded stdout stderr).

(** Both writes of [print_output] return for the captured streams: each
    stream of the harness is tolerant, or gets no lone surrogate. *)
Definition forwarding_returns (w : World) (stdout stderr : bytes) : Prop :=
  write_ok (sys_stdout w) (decode_surrogateescape stdout) = true /\
  write_ok (sys_stderr w) (decode_surrogateescape stderr) = true.

(** The argument vector a call builds. *)
Definition call_argv (w : World) (c : Call) : list string :=
  match c with
  | RunBinary args _ prefix _ =>
    match prefix with Some p => p | None => [] end
    ++ [fspath (loader_path w); fspath (libpal_path w); "init"] ++ args
  | RunNativeBinary args _ _ _ => args
  end.

(** The keywords a call passes to [subprocess.Popen]. *)
Definition call_kwargs (w : World) (c : Call) : gmap string KwVal :=
  match c with
  | RunBinary _ _ _ kwds =>
    list_to_map [("stdout", PIPE); ("stderr", PIPE);
                 ("preexec_fn", os_setpgrp)] ∪ kwds
  | RunNativeBinary _ _ libpath kwds =>
    list_to_map [("stdout", PIPE); ("stderr", PIPE);
                 ("env", EnvMap match libpath with
                                | Some l => <["LD_LIBRARY_PATH" := l]> (environ w)
                                | None => environ w
                                end);
                 ("preexec_fn", os_setpgrp)] ∪ kwds
  end.

(** The world lets the call start the child [p]: the artifacts that
    [run_binary] looks for exist, the caller's keywords repeat none of the
    call's own, and the operating system creates the process. *)
Definition launches (w : World) (c : Call) (p : Process) : Prop :=
  match c with
  | RunBinary _ _ _ kwds =>
    path_exists w (loader_path w) = true /\
    path_exists w (libpal_path w) = true /\
    kwds !! "stdout" = None /\ kwds !! "stderr" = None /\
    kwds !! "preexec_fn" = None
  | RunNativeBinary _ _ _ kwds =>
    kwds !! "stdout" = None /\ kwds !! "stderr" = None /\
    kwds !! "env" = None /\ kwds !! "preexec_fn" = None
  end /\
  popen w (call_argv w c) (call_kwargs w c) = inr p.

(** The bound a call waits for. *)
Definition bound_used (w : World) (c : Call) : Z :=
  match call_timeout c with
  | Some t => Z.max (DEFAULT_TIMEOUT w) t
  | None => DEFAULT_TIMEOUT w
  end.

(** The child of the call exited, within the bound, with status
    [returncode], having written [stdout] and [stderr]. *)
Definition target_exits (w : World) (c : Call)
    (stdout stderr : bytes) (returncode : Z) : Prop :=
  exists p T,
    In (EvCommunicate p T (Exited stdout stderr returncode))
       (events (invoke w c)).

(** The child of the call did not terminate within the bound. *)
Definition target_times_out (w : World) (c : Call) : Prop :=
  exists p T, In (EvCommunicate p T TimeoutExpired) (events (invoke w c)).

Definition is_kill (ev : Event) : bool :=
  match ev with
  | EvKillpg _ _ => true
  | _ => false
  end.

Definition kills (tr : list Event) : nat := length (List.filter is_kill tr).

(** For the sample worlds: the text of CPython 3.10 and later when one
    keyword is repeated.  When several are, the interpreter names the one
    it meets first; here that is the first of [stdout], [stderr], [env],
    [preexec_fn] and [prefix]. *)
Definition cpython_TypeError_text (callee : string)
    (kwds : gmap string KwVal) : string :=
  callee +:+ "() got multiple values for keyword argument '"
  +:+ match List.filter (fun k => bool_decide (is_Some (kwds !! k)))
                        ["stdout"; "stderr"; "env"; "preexec_fn"; "prefix"] with
      | k :: _ => k
      | [] => ""
      end
  +:+ "'".

(** ** Sample worlds

    A complete installation under /usr/lib/gramine, with an empty
    environment and tolerant streams (those of a capturing test runner that
    replaces what it cannot encode); every child has process id 4242 and
    behaves as [behaviour] says. *)
Definition installed (behaviour : Z -> CommResult) : World :=
  {| environ := ∅;
     import_environ := ∅;
     CONFIG_PKGLIBDIR := mkPath "/" ["usr"; "lib"; "gramine"];
     path_exists := fun _ => true;
     popen := fun _ _ => inr (mkProcess 4242 behaviour);
     sys_stdout := Tolerant;
     sys_stderr := Tolerant;
     TypeError_text := cpython_TypeError_text |}.

(** The same installation with one file removed. *)
Definition without (missing : string) (w : World) : World :=
  {| environ := environ w;
     import_environ := import_environ w;
     CONFIG_PKGLIBDIR := CONFIG_PKGLIBDIR w;
     path_exists := fun p => negb (String.eqb (fspath p) missing);
     popen := popen w;
     sys_stdout := sys_stdout w;
     sys_stderr := sys_stderr w;
     TypeError_text := TypeError_text w |}.

(** b"hello\n" *)
Definition hello : bytes := [x68; x65; x6c; x6c; x6f; x0a].

(** A child that writes [stdout] and [stderr] and exits with [code], well
    within any bound. *)
Definition says (stdout stderr : bytes) (code : Z) : World :=
  installed (fun _ => Exited stdout stderr code).

(** A child that needs 30 seconds. *)
Definition sleeps_30 : World :=
  installed (fun t => if t <? 30 then TimeoutExpired else Exited [] [] 0).


(** The same call with another requested timeout. *)
Definition with_timeout (timeout : option Z) (c : Call) : Call :=
  match c with
  | RunBinary args _ prefix kwds => RunBinary args timeout prefix kwds
  | RunNativeBinary args _ libpath kwds =>
    RunNativeBinary args timeout libpath kwds
  end.

(** The keywords that a call fixes itself. *)
Definition own_keywords (c : Call) : list string :=
  match c with
  | RunBinary _ _ _ _ => ["stdout"; "stderr"; "preexec_fn"]
  | RunNativeBinary _ _ _ _ => ["stdout"; "stderr"; "env"; "preexec_fn"]
  end.

Definition call_kwds (c : Call) : gmap string KwVal :=
  match c with
  | RunBinary _ _ _ kwds => kwds
  | RunNativeBinary _ _ _ kwds => kwds
  end.

(** The world [w] started in the environment [env] and with that
    environment still. *)
Definition with_environ (env : gmap string string) (w : World) : World :=
  {| environ := env;
     import_environ := env;
     CONFIG_PKGLIBDIR := CONFIG_PKGLIBDIR w;
     path_exists := path_exists w;
     popen := popen w;
     sys_stdout := sys_stdout w;
     sys_stderr := sys_stderr w;
     TypeError_text := TypeError_text w |}.

(** The world [w] where no process can be created. *)
Definition refusing (errno : Z) (w : World) : World :=
  {| environ := environ w;
     import_environ := import_environ w;
     CONFIG_PKGLIBDIR := CONFIG_PKGLIBDIR w;
     path_exists := path_exists w;
     popen := fun _ _ => inl errno;
     sys_stdout := sys_stdout w;
     sys_stderr := sys_stderr w;
     TypeError_text := TypeError_text w |}.


(** The world [w] whose environment was changed to [env] after the module
    was imported. *)
Definition with_environ_now (env : gmap string string) (w : World) : World :=
  {| environ := env;
     import_environ := import_environ w;
     CONFIG_PKGLIBDIR := CONFIG_PKGLIBDIR w;
     path_exists := path_exists w;
     popen := popen w;
     sys_stdout := sys_stdout w;
     sys_stderr := sys_stderr w;
     TypeError_text := TypeError_text w |}.

(** The checks that a call makes before it creates a process succeed:
    [run_binary] finds the loader and libpal; [run_native_binary] checks
    nothing. *)
Definition checks_pass (w : World) (c : Call) : Prop :=
  match c with
  | RunBinary _ _ _ _ =>
    path_exists w (loader_path w) = true /\
    path_exists w (libpal_path w) = true
  | RunNativeBinary _ _ _ _ => True
  end.

(** Events that create a process or end its [with] block. *)
Definition is_lifecycle (ev : Event) : bool :=
  match ev with
  | EvPopen _ _ _ | EvPopenExit _ => true
  | _ => false
  end.

(** *** Codec lemmas *)

Lemma ord_bounds (b : byte) : 0 <= ord b <= 255.
Proof.
  unfold ord. pose proof (Byte.to_N_bounded b). lia.
Qed.

Lemma chr8_ord (b : byte) : chr8 (ord b) = b.
Proof.
  unfold chr8, ord. rewrite N2Z.id, Byte.of_to_N. reflexivity.
Qed.

Lemma chr8_ord_eq (b : byte) (z : Z) : z = ord b -> chr8 z = b.
Proof. intros ->. apply chr8_ord. Qed.

Lemma in_range_spec (lo hi v : Z) :
  in_range lo hi v = true <-> lo <= v <= hi.
Proof. unfold in_range. rewrite andb_true_iff. lia. Qed.

Lemma in_range_false (lo hi v : Z) :
  in_range lo hi v = false <-> v < lo \/ hi < v.
Proof. unfold in_range. rewrite andb_false_iff. lia. Qed.

Lemma is_scalar_spec (cp : Z) :
  is_scalar cp = true <-> 0 <= cp <= 0xD7FF \/ 0xE000 <= cp <= 0x10FFFF.
Proof.
  unfold is_scalar. rewrite orb_true_iff, !in_range_spec. reflexivity.
Qed.

Ltac range_hyps :=
  repeat match goal with
  | H : (_ && _)%bool = true |- _ => apply andb_true_iff in H; destruct H
  | H : in_range _ _ _ = true |- _ => apply in_range_spec in H
  | H : in_range _ _ _ = false |- _ => apply in_range_false in H
  | H : (_ <? _) = true |- _ => apply Z.ltb_lt in H
  | H : (_ <? _) = false |- _ => apply Z.ltb_ge in H
  | H : (_ =? _) = true |- _ => apply Z.eqb_eq in H
  | H : (_ =? _) = false |- _ => apply Z.eqb_neq in H
  end.

Ltac ltb_decide :=
  repeat match goal with
  | |- context [?a <? ?b] =>
    first [ replace (a <? b) with true by (symmetry; apply Z.ltb_lt; lia)
          | replace (a <? b) with false by (symmetry; apply Z.ltb_ge; lia) ]
  end.

Ltac byte_eq := apply chr8_ord_eq; Z.div_mod_to_equations; lia.

Ltac bytes_eq :=
  repeat match goal with
  | |- _ :: _ = _ :: _ => apply (f_equal2 cons)
  end;
  try reflexivity; byte_eq.

(** A decoded sequence is the UTF-8 form of a scalar value, and is not
    empty. *)
Lemma decode_one_sound (bs rest : bytes) (cp : Z) :
  decode_one bs = Some (cp, rest) ->
  is_scalar cp = true /\ encode_one cp ++ rest = bs.
Proof.
  unfold decode_one.
  destruct bs as [|b0 r0]; [discriminate|].
  pose proof (ord_bounds b0) as B0.
  destruct (ord b0 <? 0x80) eqn:E0.
  { intros [= <- <-]. range_hyps. split.
    - apply is_scalar_spec. lia.
    - unfold encode_one. ltb_decide. cbn. f_equal. apply chr8_ord. }
  destruct (in_range 0xC2 0xDF (ord b0)) eqn:E1.
  { destruct r0 as [|b1 r1]; [discriminate|].
    pose proof (ord_bounds b1) as B1.
    destruct (in_range 0x80 0xBF (ord b1)) eqn:E2; [|discriminate].
    intros [= <- <-]. range_hyps. split.
    - apply is_scalar_spec. lia.
    - unfold encode_one. ltb_decide. cbn. bytes_eq. }
  destruct (in_range 0xE0 0xEF (ord b0)) eqn:E2.
  { destruct r0 as [|b1 [|b2 r2]]; try discriminate.
    pose proof (ord_bounds b1) as B1. pose proof (ord_bounds b2) as B2.
    destruct (ord b0 =? 0xE0) eqn:Ea; destruct (ord b0 =? 0xED) eqn:Eb;
      (match goal with |- (if ?c then _ else _) = _ -> _ => destruct c eqn:E3 end;
       [|discriminate]);
      intros [= <- <-]; range_hyps; try (exfalso; lia); (split;
      [ apply is_scalar_spec; lia
      | unfold encode_one; ltb_decide; cbn; bytes_eq ]). }
  destruct (in_range 0xF0 0xF4 (ord b0)) eqn:E3; [|discriminate].
  destruct r0 as [|b1 [|b2 [|b3 r3]]]; try discriminate.
  pose proof (ord_bounds b1) as B1. pose proof (ord_bounds b2) as B2.
  pose proof (ord_bounds b3) as B3.
  destruct (ord b0 =? 0xF0) eqn:Ea; destruct (ord b0 =? 0xF4) eqn:Eb;
    (match goal with |- (if ?c then _ else _) = _ -> _ => destruct c eqn:E4 end;
     [|discriminate]);
    intros [= <- <-]; range_hyps; try (exfalso; lia); (split;
    [ apply is_scalar_spec; lia
    | unfold encode_one; ltb_decide; cbn; bytes_eq ]).
Qed.

Lemma encode_one_nonempty (cp : Z) : (0 < length (encode_one cp))%nat.
Proof.
  unfold encode_one.
  repeat match goal with |- context [if ?c then _ else _] => destruct c end;
    cbn; lia.
Qed.

Lemma decode_one_shorter (bs rest : bytes) (cp : Z) :
  decode_one bs = Some (cp, rest) -> (length rest < length bs)%nat.
Proof.
  intros H. apply decode_one_sound in H as [_ <-].
  rewrite length_app. pose proof (encode_one_nonempty cp). lia.
Qed.


(** The fuel [length bs] is enough: more fuel changes nothing. *)
Lemma decode_fuel_enough (fuel : nat) (bs : bytes) :
  (length bs <= fuel)%nat -> decode_fuel fuel bs = decode bs.
Proof.
  unfold decode.
  assert (G : forall n m (l : bytes), (length l <= n)%nat -> (length l <= m)%nat ->
              decode_fuel n l = decode_fuel m l).
  { induction n as [|n IH]; intros m l Hn Hm.
    - destruct l; [destruct m; reflexivity | cbn in Hn; lia].
    - destruct l as [|b r]; [destruct m; reflexivity|].
      destruct m as [|m]; [cbn in Hm; lia|].
      cbn [decode_fuel].
      destruct (decode_one (b :: r)) as [[cp rest]|] eqn:E; [|reflexivity].
      apply decode_one_shorter in E. cbn [length] in *.
      rewrite (IH m rest) by lia. reflexivity. }
  intros H. apply G; lia.
Qed.

Lemma decode_surrogateescape_fuel_enough (fuel : nat) (bs : bytes) :
  (length bs <= fuel)%nat ->
  decode_surrogateescape_fuel fuel bs = decode_surrogateescape bs.
Proof.
  unfold decode_surrogateescape.
  assert (G : forall n m (l : bytes), (length l <= n)%nat -> (length l <= m)%nat ->
              decode_surrogateescape_fuel n l = decode_surrogateescape_fuel m l).
  { induction n as [|n IH]; intros m l Hn Hm.
    - destruct l; [destruct m; reflexivity | cbn in Hn; lia].
    - destruct l as [|b r]; [destruct m; reflexivity|].
      destruct m as [|m]; [cbn in Hm; lia|].
      cbn [decode_surrogateescape_fuel].
      destruct (decode_one (b :: r)) as [[cp rest]|] eqn:E.
      + apply decode_one_shorter in E. cbn [length] in *.
        rewrite (IH m rest) by lia. reflexivity.
      + cbn [length] in *. rewrite (IH m r) by lia. reflexivity. }
  intros H. apply G; lia.
Qed.

(** Unfolding equations of the two decoders, free of fuel. *)
Lemma decode_nil : decode [] = Some [].
Proof. reflexivity. Qed.

Lemma decode_step (b : byte) (r : bytes) :
  decode (b :: r) =
  match decode_one (b :: r) with
  | Some (cp, rest) =>
    match decode rest with
    | Some s => Some (cp :: s)
    | None => None
    end
  | None => None
  end.
Proof.
  unfold decode at 1. cbn [length decode_fuel].
  destruct (decode_one (b :: r)) as [[cp rest]|] eqn:E; [|reflexivity].
  apply decode_one_shorter in E. cbn [length] in E.
  rewrite decode_fuel_enough by lia. reflexivity.
Qed.

Lemma decode_surrogateescape_step (b : byte) (r : bytes) :
  decode_surrogateescape (b :: r) =
  match decode_one (b :: r) with
  | Some (cp, rest) => cp :: decode_surrogateescape rest
  | None => (0xDC00 + ord b) :: decode_surrogateescape r
  end.
Proof.
  unfold decode_surrogateescape at 1.
  cbn [length decode_surrogateescape_fuel].
  destruct (decode_one (b :: r)) as [[cp rest]|] eqn:E.
  - apply decode_one_shorter in E. cbn [length] in E.
    rewrite decode_surrogateescape_fuel_enough by lia. reflexivity.
  - rewrite decode_surrogateescape_fuel_enough by lia. reflexivity.
Qed.

(** Induction on byte strings along the decoder's steps. *)
Lemma bytes_decode_ind (P : bytes -> Prop) :
  P [] ->
  (forall b r cp rest,
      decode_one (b :: r) = Some (cp, rest) -> P rest -> P (b :: r)) ->
  (forall b r, decode_one (b :: r) = None -> P r -> P (b :: r)) ->
  forall bs, P bs.
Proof.
  intros Hnil Hseq Hbad bs.
  remember (length bs) as n eqn:Hn.
  revert bs Hn. induction n as [n IH] using lt_wf_ind. intros bs ->.
  destruct bs as [|b r]; [exact Hnil|].
  destruct (decode_one (b :: r)) as [[cp rest]|] eqn:E.
  - apply (Hseq b r cp rest E).
    apply (IH (length rest)); [|reflexivity].
    apply decode_one_shorter in E. exact E.
  - apply (Hbad b r E). apply (IH (length r)); [cbn; lia | reflexivity].
Qed.

(** Strict decoding loses nothing: encoding the result gives the bytes
    back. *)
Lemma encode_decode (bs : bytes) (s : pystr) :
  decode bs = Some s -> encode s = Some bs.
Proof.
  revert s. induction bs as [|b r cp rest E IH|b r E IH] using bytes_decode_ind;
    intros s.
  - intros [= <-]. reflexivity.
  - rewrite decode_step, E.
    destruct (decode rest) as [s'|] eqn:D; [|discriminate].
    intros [= <-]. apply decode_one_sound in E as [Hs Hb].
    unfold encode in *. cbn [encode_with].
    unfold encode_one_strict at 1. rewrite Hs, (IH s' eq_refl), Hb. reflexivity.
  - rewrite decode_step, E. discriminate.
Qed.

(** On well-formed input the tolerant decoder agrees with the strict one. *)
Lemma decode_surrogateescape_strict (bs : bytes) (s : pystr) :
  decode bs = Some s -> decode_surrogateescape bs = s.
Proof.
  revert s. induction bs as [|b r cp rest E IH|b r E IH] using bytes_decode_ind;
    intros s.
  - intros [= <-]. reflexivity.
  - rewrite decode_step, decode_surrogateescape_step, E.
    destruct (decode rest) as [s'|] eqn:D; [|discriminate].
    intros [= <-]. rewrite (IH s' eq_refl). reflexivity.
  - rewrite decode_step, E. discriminate.
Qed.


Lemma ord_chr8 (z : Z) : 0 <= z <= 255 -> ord (chr8 z) = z.
Proof.
  intros Hz. unfold ord, chr8.
  destruct (Byte.of_N (Z.to_N z)) as [b|] eqn:E.
  - apply Byte.to_of_N in E. lia.
  - apply Byte.of_N_None_iff in E. lia.
Qed.

Ltac ord_chr8_all :=
  repeat match goal with
  | |- context [ord (chr8 ?z)] =>
    rewrite (ord_chr8 z) by (Z.div_mod_to_equations; lia)
  end.

Ltac decide_guards :=
  repeat match goal with
  | |- context [in_range ?lo ?hi ?v] =>
    first
      [ replace (in_range lo hi v) with true
          by (symmetry; apply in_range_spec; Z.div_mod_to_equations; lia)
      | replace (in_range lo hi v) with false
          by (symmetry; apply in_range_false; Z.div_mod_to_equations; lia) ]
  | |- context [?a <? ?b] =>
    first
      [ replace (a <? b) with true
          by (symmetry; apply Z.ltb_lt; Z.div_mod_to_equations; lia)
      | replace (a <? b) with false
          by (symmetry; apply Z.ltb_ge; Z.div_mod_to_equations; lia) ]
  | |- context [?a =? ?b] =>
    first
      [ replace (a =? b) with true
          by (symmetry; apply Z.eqb_eq; Z.div_mod_to_equations; lia)
      | replace (a =? b) with false
          by (symmetry; apply Z.eqb_neq; Z.div_mod_to_equations; lia) ]
  end.

(** The decoder accepts the UTF-8 form of every scalar value. *)
Lemma decode_one_complete (cp : Z) (rest : bytes) :
  is_scalar cp = true -> decode_one (encode_one cp ++ rest) = Some (cp, rest).
Proof.
  intros Hs. apply is_scalar_spec in Hs. unfold encode_one.
  destruct (cp <? 0x80) eqn:E1; [|destruct (cp <? 0x800) eqn:E2;
                                   [|destruct (cp <? 0x10000) eqn:E3]];
    range_hyps; cbn [app]; unfold decode_one; ord_chr8_all.
  - decide_guards. reflexivity.
  - decide_guards. cbn [andb]. do 2 f_equal. Z.div_mod_to_equations. lia.
  - destruct (Z.eq_dec (cp / 4096) 0) as [H0|H0];
      destruct (Z.eq_dec (cp / 4096) 13) as [Hd|Hd];
      decide_guards; cbn [andb]; do 2 f_equal; Z.div_mod_to_equations; lia.
  - destruct (Z.eq_dec (cp / 262144) 0) as [H0|H0];
      destruct (Z.eq_dec (cp / 262144) 4) as [Hd|Hd];
      decide_guards; cbn [andb]; do 2 f_equal; Z.div_mod_to_equations; lia.
Qed.

Lemma decode_seq (bs rest : bytes) (cp : Z) :
  decode_one bs = Some (cp, rest) ->
  decode bs = match decode rest with
              | Some s => Some (cp :: s)
              | None => None
              end.
Proof.
  intros E. destruct bs as [|b r]; [discriminate E|].
  rewrite decode_step, E. reflexivity.
Qed.

(** Every text without surrogates is the decoding of its UTF-8 form: the
    well-formed byte strings are exactly the encodings. *)
Lemma decode_encode (s : pystr) (bs : bytes) :
  encode s = Some bs -> decode bs = Some s.
Proof.
  revert bs. unfold encode. induction s as [|cp s IH]; intros bs.
  - intros [= <-]. reflexivity.
  - cbn [encode_with]. unfold encode_one_strict at 1.
    destruct (is_scalar cp) eqn:Hs; [|discriminate].
    destruct (encode_with encode_one_strict s) as [bs'|]; [|discriminate].
    intros [= <-].
    rewrite (decode_seq _ bs' cp (decode_one_complete cp bs' Hs)).
    rewrite (IH bs' eq_refl). reflexivity.
Qed.

(** ** Properties of the harness *)

Lemma py_max_max (a b : Z) : py_max a b = Z.max a b.
Proof. unfold py_max. destruct (a <? b) eqn:E; range_hyps; lia. Qed.

Lemma effective_timeout_eq (w : World) (timeout : option Z) :
  match timeout with
  | Some t => Z.max (DEFAULT_TIMEOUT w) t
  | None => DEFAULT_TIMEOUT w
  end =
  match timeout with
  | Some t => py_max (DEFAULT_TIMEOUT w) t
  | None => DEFAULT_TIMEOUT w
  end.
Proof. destruct timeout; [symmetry; apply py_max_max | reflexivity]. Qed.

(** Strictly decoded text has no surrogate, so every stream takes it. *)
Lemma decode_scalar (bs : bytes) (s : pystr) :
  decode bs = Some s -> forallb is_scalar s = true.
Proof.
  revert s. induction bs as [|b r cp rest E IH|b r E IH] using bytes_decode_ind;
    intros s.
  - intros [= <-]. reflexivity.
  - rewrite decode_step, E.
    destruct (decode rest) as [s'|]; [|discriminate].
    intros [= <-]. apply decode_one_sound in E as [Hs _].
    cbn [forallb]. rewrite Hs, (IH s' eq_refl). reflexivity.
  - rewrite decode_step, E. discriminate.
Qed.

Lemma well_formed_write_ok (errors : ErrorHandler) (bs : bytes) (s : pystr) :
  decode bs = Some s -> write_ok errors (decode_surrogateescape bs) = true.
Proof.
  intros H. rewrite (decode_surrogateescape_strict bs s H).
  destruct errors; [apply (decode_scalar bs s H) | reflexivity].
Qed.

Lemma decode_both (stdout stderr : bytes) :
  (out <- bytes_decode stdout;; err <- bytes_decode stderr;; ret (out, err))
  = ([], decoded stdout stderr).
Proof.
  unfold bytes_decode, decoded.
  destruct (decode stdout); [|reflexivity].
  destruct (decode stderr); reflexivity.
Qed.

Lemma explicit_piped_group_leader (explicit : list (string * KwVal))
    (kwds : gmap string KwVal) :
  piped_group_leader (list_to_map explicit) ->
  piped_group_leader (list_to_map explicit ∪ kwds).
Proof.
  intros (H1 & H2 & H3).
  repeat split; apply lookup_union_Some_l; assumption.
Qed.

(** The tail of both entry points, from the answer of the operating system
    on. *)
Ltac supervise w T :=
  unfold Popen;
  match goal with |- context [existsb ?f ?l] => destruct (existsb f l) end;
    [apply sup_bad_call|];
  match goal with |- context [popen w ?a ?k] =>
    let p := fresh "p" in
    let Hk := fresh "Hk" in
    assert (Hk : piped_group_leader k)
      by (apply explicit_piped_group_leader; repeat split; reflexivity);
    destruct (popen w a k) as [errno|p]; [apply sup_refused|];
    unfold with_process, process_communicate, finally, print_output,
      stream_write;
    cbn -[write_ok];
    destruct (communicate p T) as [out err rc|]; cbn -[write_ok];
    [ destruct (write_ok (sys_stdout w) (decode_surrogateescape out)) eqn:Wo;
      cbn -[write_ok];
      [ destruct (write_ok (sys_stderr w) (decode_surrogateescape err)) eqn:We;
        cbn -[write_ok];
        [ destruct (rc =? 0) eqn:Erc; cbn -[write_ok];
          [ apply Z.eqb_eq in Erc; subst rc; rewrite decode_both;
            cbn -[write_ok]; apply sup_exited; assumption
          | apply Z.eqb_neq in Erc; apply sup_failed; assumption ]
        | apply sup_stderr_unwritable; assumption ]
      | apply sup_stdout_unwritable; assumption ]
    | apply sup_timeout; exact Hk ]
  end.

(** Every call of either entry point is one of the runs of
    [Supervision]. *)
Lemma invoke_supervision (w : World) (c : Call) :
  Supervision (call_args c) (call_argv w c) (bound_used w c)
              (sys_stdout w) (sys_stderr w) (invoke w c).
Proof.
  destruct c as [args timeout prefix kwds | args timeout libpath kwds];
    unfold bound_used, invoke, run_binary, run_native_binary;
    cbn [call_args call_argv call_timeout]; rewrite effective_timeout_eq;
    generalize (match timeout with
                | Some t => py_max (DEFAULT_TIMEOUT w) t
                | None => DEFAULT_TIMEOUT w
                end); intros T.
  - destruct (path_exists w (loader_path w)); [|apply sup_precondition].
    destruct (path_exists w (libpal_path w)); [|apply sup_precondition].
    supervise w T.
  - supervise w T.
Qed.

Ltac logged_wait :=
  unfold with_process, process_communicate, finally, print_output,
    stream_write;
  cbn -[write_ok];
  match goal with |- context [communicate ?p ?T] =>
    destruct (communicate p T) as [? ? rc|]; cbn -[write_ok];
    [repeat match goal with
            | |- context [write_ok ?h ?t] => destruct (write_ok h t)
            end;
     cbn -[write_ok]; destruct (rc =? 0); cbn -[write_ok]|];
    right; left; reflexivity
  end.

(** What the log of a call says about its child is what the world does:
    when the world lets the call start a child, the call waits for it with
    the bound of the call and logs the answer. *)
Lemma launched_wait_logged (w : World) (c : Call) (p : Process) :
  launches w c p ->
  In (EvCommunicate (pid p) (bound_used w c) (communicate p (bound_used w c)))
     (events (invoke w c)).
Proof.
  unfold launches, bound_used, events.
  destruct c as [args timeout prefix kwds | args timeout libpath kwds];
    cbn [call_argv call_kwargs call_timeout invoke];
    unfold run_binary, run_native_binary, Popen;
    rewrite effective_timeout_eq.
  - intros ((-> & -> & H1 & H2 & H3) & Hp).
    cbn [existsb fst]. rewrite H1, H2, H3. cbn [bool_decide orb].
    rewrite Hp. logged_wait.
  - intros ((H1 & H2 & H3 & H4) & Hp).
    cbn [existsb fst]. rewrite H1, H2, H3, H4. cbn [bool_decide orb].
    rewrite Hp. logged_wait.
Qed.

Lemma launched_exit (w : World) (c : Call) (p : Process)
    (stdout stderr : bytes) (rc : Z) :
  launches w c p ->
  communicate p (bound_used w c) = Exited stdout stderr rc ->
  target_exits w c stdout stderr rc.
Proof.
  intros Hl Hc. exists (pid p), (bound_used w c).
  rewrite <- Hc. apply launched_wait_logged. exact Hl.
Qed.

Lemma launched_timeout (w : World) (c : Call) (p : Process) :
  launches w c p ->
  communicate p (bound_used w c) = TimeoutExpired ->
  target_times_out w c.
Proof.
  intros Hl Hc. exists (pid p), (bound_used w c).
  rewrite <- Hc. apply launched_wait_logged. exact Hl.
Qed.

(** Case analysis of a call along [Supervision]. *)
Ltac by_supervision w c :=
  let S := fresh "S" in
  let m := fresh "m" in
  let Hm := fresh "Hm" in
  pose proof (invoke_supervision w c) as S;
  unfold target_exits, target_times_out, events, outcome in *;
  remember (invoke w c) as m eqn:Hm in *;
  destruct S; cbn [fst snd] in *.

Ltac event_cases :=
  repeat match goal with
  | H : In _ (_ :: _) |- _ => destruct H as [H|H]
  | H : In _ [] |- _ => destruct H
  | H : ex _ |- _ => destruct H
  | H : _ /\ _ |- _ => destruct H
  end;
  simplify_eq.

(** A write of well-formed output cannot have failed. *)
Ltac well_formed_written :=
  match goal with
  | Hw : write_ok _ (decode_surrogateescape ?b) = false,
    Hd : decode ?b = Some _ |- _ =>
    rewrite (well_formed_write_ok _ _ _ Hd) in Hw; discriminate Hw
  end.

(** C1 (amended): when the child exits with status 0 within the bound and
    both captured streams are well-formed UTF-8, either entry point returns
    the pair of their UTF-8 decodings; these are text, not the raw bytes,
    and encoding them gives the captured bytes back, byte for byte. *)
Theorem success_returns_decoded_streams (w : World) (c : Call)
    (stdout stderr : bytes) (out err : pystr) :
  target_exits w c stdout stderr 0 ->
  decode stdout = Some out ->
  decode stderr = Some err ->
  outcome (invoke w c) = Return (out, err) /\
  encode out = Some stdout /\ encode err = Some stderr.
Proof.
  intros Hexit Hout Herr.
  split; [|split; apply encode_decode; assumption].
  by_supervision w c; event_cases; try well_formed_written.
  unfold decoded. rewrite Hout, Herr. reflexivity.
Qed.

Lemma success_returns_decoded_streams_witness :
  outcome (invoke (says hello [] 0) (RunBinary ["helloworld"] (Some 10) None ∅))
  = Return ([104; 101; 108; 108; 111; 10], []) /\
  encode [104; 101; 108; 108; 111; 10] = Some hello /\
  encode [] = Some [].
Proof.
  apply (success_returns_decoded_streams
           (says hello [] 0) (RunBinary ["helloworld"] (Some 10) None ∅)
           hello []).
  - exists 4242, 10. vm_compute. right. left. reflexivity.
  - reflexivity.
  - reflexivity.
Defined.

(** C1 as stated fails.  The first child exits with status 0 within the
    bound after writing the byte 0xFF, and the call raises instead of
    returning.  The second writes the two bytes of U+00E9, and the call
    returns one code point: text, not the two bytes. *)
Lemma success_not_raw_bytes :
  (target_exits (says [xff] [] 0) (RunBinary ["helloworld"] None None ∅)
                [xff] [] 0 /\
   outcome (invoke (says [xff] [] 0) (RunBinary ["helloworld"] None None ∅))
   = Raise (UnicodeDecodeError [xff]) /\
   ~ (exists r,
        outcome (invoke (says [xff] [] 0) (RunBinary ["helloworld"] None None ∅))
        = Return r)) /\
  (target_exits (says [xc3; xa9] [] 0) (RunNativeBinary ["helper"] None None ∅)
                [xc3; xa9] [] 0 /\
   outcome (invoke (says [xc3; xa9] [] 0)
                   (RunNativeBinary ["helper"] None None ∅))
   = Return ([0xE9], []) /\
   [0xE9] <> map ord [xc3; xa9]).
Proof.
  split; split.
  - exists 4242, 10. vm_compute. right. left. reflexivity.
  - split; [reflexivity|].
    intros [r H]. vm_compute in H. discriminate H.
  - exists 4242, 10. vm_compute. right. left. reflexivity.
  - split; [reflexivity | discriminate].
Qed.


(** A [CalledProcessError] comes from a child that exited with that
    status, which is not 0; it carries the caller's [args]. *)
Lemma CalledProcessError_from_exit (w : World) (c : Call)
    (k : Z) (cmd : list string) (stdout stderr : bytes) :
  outcome (invoke w c) = Raise (CalledProcessError k cmd stdout stderr) ->
  k <> 0 /\ target_exits w c stdout stderr k /\ cmd = call_args c.
Proof.
  intros Hraise. by_supervision w c; try discriminate Hraise.
  - injection Hraise as -> -> -> ->.
    split; [assumption|]. split; [|reflexivity].
    eexists _, _. right. left. reflexivity.
  - unfold decoded in Hraise.
    destruct (decode stdout0); [|discriminate Hraise].
    destruct (decode stderr0); discriminate Hraise.
Qed.

(** Before a [CalledProcessError] both captured streams were written. *)
Lemma CalledProcessError_forwarded (w : World) (c : Call)
    (k : Z) (cmd : list string) (stdout stderr : bytes) :
  outcome (invoke w c) = Raise (CalledProcessError k cmd stdout stderr) ->
  forwarding_returns w stdout stderr /\
  exists pre p T,
    events (invoke w c)
    = pre ++ [EvCommunicate p T (Exited stdout stderr k);
              EvStdoutWrite (decode_surrogateescape stdout);
              EvStderrWrite (decode_surrogateescape stderr);
              EvPopenExit p].
Proof.
  intros Hraise. by_supervision w c; try discriminate Hraise.
  - injection Hraise as -> _ -> ->.
    split; [split; assumption|]. eexists [_], _, _. reflexivity.
  - unfold decoded in Hraise.
    destruct (decode stdout0); [|discriminate Hraise].
    destruct (decode stderr0); discriminate Hraise.
Qed.

(** A call that returns comes from a child that exited with status 0, and
    returns the strict decodings of its streams, after writing them. *)
Lemma Return_from_exit (w : World) (c : Call) (r : pystr * pystr) :
  outcome (invoke w c) = Return r ->
  exists stdout stderr,
    target_exits w c stdout stderr 0 /\
    decode stdout = Some r.1 /\ decode stderr = Some r.2 /\
    exists pre p T,
      events (invoke w c)
      = pre ++ [EvCommunicate p T (Exited stdout stderr 0);
                EvStdoutWrite (decode_surrogateescape stdout);
                EvStderrWrite (decode_surrogateescape stderr);
                EvPopenExit p].
Proof.
  intros Hret. by_supervision w c; try discriminate Hret.
  unfold decoded in Hret.
  destruct (decode stdout) as [o|] eqn:Ho; [|discriminate Hret].
  destruct (decode stderr) as [e|] eqn:He; [|discriminate Hret].
  injection Hret as <-.
  exists stdout, stderr. split; [|split; [exact Ho|split; [exact He|]]].
  - eexists _, _. right. left. reflexivity.
  - eexists [_], _, _. reflexivity.
Qed.





(** C3: when the wait times out, the call does exactly this, in order: it
    has started the child as the leader of a new process group, the wait
    for the bound expires, one [SIGKILL] goes to that group, and the
    [with] block ends.  Nothing is written, and the call raises an
    [AssertionError] whose message names the bound and carries no output;
    it is not a [CalledProcessError]. *)
Theorem timeout_kills_group_and_fails (w : World) (c : Call) :
  target_times_out w c ->
  (exists kw p,
     piped_group_leader kw /\
     events (invoke w c)
     = [EvPopen (call_argv w c) kw (Child p);
        EvCommunicate p (bound_used w c) TimeoutExpired;
        EvKillpg p SIGKILL;
        EvPopenExit p]) /\
  outcome (invoke w c)
  = Raise (AssertionError
             ("timeout (" +:+ pretty (bound_used w c) +:+ " s) expired")) /\
  (forall k cmd o e,
     outcome (invoke w c) <> Raise (CalledProcessError k cmd o e)).
Proof.
  intros Hto. by_supervision w c; event_cases.
  split; [|split].
  - eexists _, _. split; [eassumption | reflexivity].
  - reflexivity.
  - intros k cmd o e. discriminate.
Qed.

Lemma timeout_kills_group_and_fails_witness :
  outcome (invoke sleeps_30 (RunBinary ["sleep"; "30"] (Some 2) None ∅))
  = Raise (AssertionError "timeout (10 s) expired").
Proof.
  apply (timeout_kills_group_and_fails
           sleeps_30 (RunBinary ["sleep"; "30"] (Some 2) None ∅)).
  exists 4242, 10. vm_compute. right. left. reflexivity.
Defined.

(** C4: the bound that either entry point waits for is
    [max(DEFAULT_TIMEOUT, t)] for a requested [t >= 0] and
    [DEFAULT_TIMEOUT] when none is requested; it is never below the
    default, and it grows with the request. *)
Theorem effective_timeout_is_max (w : World) (c : Call)
    (p T : Z) (res : CommResult) :
  In (EvCommunicate p T res) (events (invoke w c)) ->
  (forall t, call_timeout c = Some t -> 0 <= t ->
             T = Z.max (DEFAULT_TIMEOUT w) t) /\
  (call_timeout c = None -> T = DEFAULT_TIMEOUT w) /\
  DEFAULT_TIMEOUT w <= T /\
  (forall c' p' T' res' t t',
     In (EvCommunicate p' T' res') (events (invoke w c')) ->
     call_timeout c = Some t -> call_timeout c' = Some t' ->
     t <= t' -> T <= T').
Proof.
  intros Hev.
  assert (HT : T = bound_used w c).
  { by_supervision w c; event_cases; reflexivity. }
  subst T. unfold bound_used. repeat split.
  - intros t -> _. reflexivity.
  - intros ->. reflexivity.
  - destruct (call_timeout c); lia.
  - intros c' p' T' res' t t' Hev' -> Ht' Hle.
    assert (HT' : T' = bound_used w c').
    { clear Hev. by_supervision w c'; event_cases; reflexivity. }
    subst T'. unfold bound_used. rewrite Ht'. lia.
Qed.

Lemma effective_timeout_is_max_witness :
  25 = Z.max (DEFAULT_TIMEOUT sleeps_30) 25.
Proof.
  refine (proj1 (effective_timeout_is_max
                   sleeps_30 (RunNativeBinary ["sleep"; "30"] (Some 25) None ∅)
                   4242 25 TimeoutExpired _) 25 _ _).
  - vm_compute. right. left. reflexivity.
  - reflexivity.
  - lia.
Defined.

(** C5: [expect_returncode] with expected code [C].  For [C = 0] it raises
    [ValueError] and the body has not run (no event).  Otherwise the body
    runs, and: a body that does not raise fails the test with 'did not fail
    (expected C)'; a [CalledProcessError] with another code fails it with a
    message naming both codes; one with the code [C] is swallowed and the
    block ends normally; any other exception comes out as it was. *)
Theorem expect_returncode_cases {A : Type} (C : Z) (body : M A) :
  (C = 0 ->
   expect_returncode C body
   = ([], Raise (ValueError "expected returncode should be nonzero"))) /\
  (C <> 0 ->
   (forall a, outcome body = Return a ->
      expect_returncode C body
      = (events body,
         Raise (AssertionError
                  ("did not fail (expected " +:+ pretty C +:+ ")")))) /\
   (forall actual cmd o e,
      outcome body = Raise (CalledProcessError actual cmd o e) ->
      actual <> C ->
      expect_returncode C body
      = (events body,
         Raise (AssertionError
                  (pretty actual +:+ " != " +:+ pretty C +:+ " : "
                   +:+ "failed with returncode " +:+ pretty actual
                   +:+ " (expected " +:+ pretty C +:+ ")")))) /\
   (forall cmd o e,
      outcome body = Raise (CalledProcessError C cmd o e) ->
      expect_returncode C body = (events body, Return tt)) /\
   (forall exc,
      outcome body = Raise exc ->
      (forall k cmd o e, exc <> CalledProcessError k cmd o e) ->
      expect_returncode C body = (events body, Raise exc))).
Proof.
  unfold expect_returncode, events, outcome. split.
  - intros ->. reflexivity.
  - intros HC. apply Z.eqb_neq in HC. rewrite HC.
    destruct body as [tr res]. cbn [fst snd]. repeat split.
    + intros a ->. cbn. rewrite app_nil_r. reflexivity.
    + intros actual cmd o e -> Hne. cbn. unfold assertEqual.
      apply Z.eqb_neq in Hne. rewrite Hne. cbn. rewrite app_nil_r. reflexivity.
    + intros cmd o e ->. cbn. unfold assertEqual.
      rewrite Z.eqb_refl. cbn. rewrite app_nil_r. reflexivity.
    + intros exc -> Hother. cbn.
      destruct exc; try reflexivity.
      exfalso. eapply Hother. reflexivity.
Qed.

Lemma expect_returncode_cases_witness :
  outcome (expect_returncode 5
             (invoke (says hello [] 0) (RunBinary ["helloworld"] None None ∅)))
  = Raise (AssertionError "did not fail (expected 5)") /\
  outcome (expect_returncode 5
             (invoke (says hello [] 3) (RunBinary ["helloworld"] None None ∅)))
  = Raise (AssertionError "3 != 5 : failed with returncode 3 (expected 5)") /\
  outcome (expect_returncode 5
             (invoke (says hello [] 5) (RunBinary ["helloworld"] None None ∅)))
  = Return tt /\
  expect_returncode 0
    (invoke (says hello [] 5) (RunBinary ["helloworld"] None None ∅))
  = ([], Raise (ValueError "expected returncode should be nonzero")) /\
  outcome (expect_returncode 5
             (invoke sleeps_30 (RunBinary ["sleep"; "30"] None None ∅)))
  = Raise (AssertionError "timeout (10 s) expired").
Proof.
  pose (ok := invoke (says hello [] 0) (RunBinary ["helloworld"] None None ∅)).
  pose (three := invoke (says hello [] 3) (RunBinary ["helloworld"] None None ∅)).
  pose (five := invoke (says hello [] 5) (RunBinary ["helloworld"] None None ∅)).
  pose (slow := invoke sleeps_30 (RunBinary ["sleep"; "30"] None None ∅)).
  assert (H5 : 5 <> 0) by lia.
  destruct (proj2 (expect_returncode_cases 5 ok) H5) as (Hok & _).
  destruct (proj2 (expect_returncode_cases 5 three) H5) as (_ & Hthree & _).
  destruct (proj2 (expect_returncode_cases 5 five) H5) as (_ & _ & Hfive & _).
  destruct (proj2 (expect_returncode_cases 5 slow) H5) as (_ & _ & _ & Hslow).
  split; [|split; [|split; [|split]]].
  - fold ok. rewrite (Hok ([104; 101; 108; 108; 111; 10], []) eq_refl).
    reflexivity.
  - fold three.
    rewrite (Hthree 3 ["helloworld"] hello [] eq_refl ltac:(lia)). reflexivity.
  - fold five. rewrite (Hfive ["helloworld"] hello [] eq_refl). reflexivity.
  - apply (proj1 (expect_returncode_cases 0 five)). reflexivity.
  - fold slow.
    rewrite (Hslow (AssertionError "timeout (10 s) expired") eq_refl
               ltac:(discriminate)).
    reflexivity.
Defined.

(** C6: [run_binary] looks for the loader and then for libpal before it
    creates any process.  When one is missing the call fails at once with
    an [AssertionError] that names the missing path, and no process has
    been created; a process is created only when both exist. *)
Theorem missing_artifact_fails_before_spawn (w : World) (args : list string)
    (timeout : option Z) (prefix : option (list string))
    (kwds : gmap string KwVal) :
  (path_exists w (loader_path w) = false ->
   run_binary w args timeout prefix kwds
   = ([], Raise (AssertionError
                   ("loader (" +:+ fspath (loader_path w) +:+ ") not found")))) /\
  (path_exists w (loader_path w) = true ->
   path_exists w (libpal_path w) = false ->
   run_binary w args timeout prefix kwds
   = ([], Raise (AssertionError
                   ("libpal (" +:+ fspath (libpal_path w) +:+ ") not found")))) /\
  (forall argv kw res,
     In (EvPopen argv kw res) (events (run_binary w args timeout prefix kwds)) ->
     path_exists w (loader_path w) = true /\
     path_exists w (libpal_path w) = true).
Proof.
  unfold run_binary, events. split; [|split].
  - intros ->. reflexivity.
  - intros -> ->. reflexivity.
  - intros argv kw res Hev.
    destruct (path_exists w (loader_path w)); [|destruct Hev].
    destruct (path_exists w (libpal_path w)); [|destruct Hev].
    split; reflexivity.
Qed.

Lemma missing_artifact_fails_before_spawn_witness :
  run_binary (without "/usr/lib/gramine/direct/loader" (says hello [] 0))
             ["helloworld"] None None ∅
  = ([], Raise (AssertionError
                  "loader (/usr/lib/gramine/direct/loader) not found")) /\
  run_binary (without "/usr/lib/gramine/direct/libpal.so" (says hello [] 0))
             ["helloworld"] None None ∅
  = ([], Raise (AssertionError
                  "libpal (/usr/lib/gramine/direct/libpal.so) not found")).
Proof.
  split.
  - apply (proj1 (missing_artifact_fails_before_spawn
                    (without "/usr/lib/gramine/direct/loader" (says hello [] 0))
                    ["helloworld"] None None ∅)).
    reflexivity.
  - apply (proj1 (proj2 (missing_artifact_fails_before_spawn
                    (without "/usr/lib/gramine/direct/libpal.so" (says hello [] 0))
                    ["helloworld"] None None ∅))); reflexivity.
Defined.

(** C7: the process that [run_binary] creates gets the argument vector
    [prefix ++ [loader; libpal; 'init'] ++ args], with no prefix when none
    is given; the one that [run_native_binary] creates gets the caller's
    [args] and nothing else. *)
Theorem spawned_argument_vector (w : World) (args : list string)
    (timeout : option Z) (kwds : gmap string KwVal)
    (argv : list string) (kw : gmap string KwVal) (res : Started) :
  (forall prefix,
     In (EvPopen argv kw res)
        (events (run_binary w args timeout (Some prefix) kwds)) ->
     argv = prefix ++ [fspath (loader_path w); fspath (libpal_path w); "init"]
                   ++ args) /\
  (In (EvPopen argv kw res) (events (run_binary w args timeout None kwds)) ->
   argv = [fspath (loader_path w); fspath (libpal_path w); "init"] ++ args) /\
  (forall libpath,
     In (EvPopen argv kw res)
        (events (run_native_binary w args timeout libpath kwds)) ->
     argv = args).
Proof.
  repeat split.
  - intros prefix Hev.
    change (run_binary w args timeout (Some prefix) kwds)
      with (invoke w (RunBinary args timeout (Some prefix) kwds)) in Hev.
    by_supervision w (RunBinary args timeout (Some prefix) kwds);
      event_cases; reflexivity.
  - intros Hev.
    change (run_binary w args timeout None kwds)
      with (invoke w (RunBinary args timeout None kwds)) in Hev.
    by_supervision w (RunBinary args timeout None kwds);
      event_cases; reflexivity.
  - intros libpath Hev.
    change (run_native_binary w args timeout libpath kwds)
      with (invoke w (RunNativeBinary args timeout libpath kwds)) in Hev.
    by_supervision w (RunNativeBinary args timeout libpath kwds);
      event_cases; reflexivity.
Qed.

Lemma spawned_argument_vector_witness :
  ["gdb"; "--args"; "/usr/lib/gramine/direct/loader";
   "/usr/lib/gramine/direct/libpal.so"; "init"; "helloworld"; "x"]
  = ["gdb"; "--args"]
      ++ [fspath (loader_path (says hello [] 0));
          fspath (libpal_path (says hello [] 0)); "init"]
      ++ ["helloworld"; "x"].
Proof.
  refine (proj1 (spawned_argument_vector
                   (says hello [] 0) ["helloworld"; "x"] None ∅ _
                   (list_to_map [("stdout", PIPE); ("stderr", PIPE);
                                 ("preexec_fn", os_setpgrp)] ∪ ∅)
                   (Child 4242))
                ["gdb"; "--args"] _).
  left. reflexivity.
Defined.




(** A run of [Supervision] kills at most once. *)
Lemma supervision_kills (args argv : list string) (T : Z)
    (hout herr : ErrorHandler) (m : M (pystr * pystr)) :
  Supervision args argv T hout herr m -> (kills (events m) <= 1)%nat.
Proof. intros S. destruct S; cbn; lia. Qed.

(** C9: a call kills at most once; a kill is the step right after a wait
    that timed out, and goes to the process waited for; and a call whose
    child was seen to exit, or that returns or raises
    [CalledProcessError], has killed nothing. *)
Theorem kill_only_after_timeout (w : World) (c : Call) :
  (kills (events (invoke w c)) <= 1)%nat /\
  (forall pg sig,
     In (EvKillpg pg sig) (events (invoke w c)) ->
     target_times_out w c /\
     exists pre post T,
       events (invoke w c)
       = pre ++ [EvCommunicate pg T TimeoutExpired; EvKillpg pg sig] ++ post) /\
  (forall stdout stderr rc,
     target_exits w c stdout stderr rc -> kills (events (invoke w c)) = 0%nat) /\
  (forall r,
     outcome (invoke w c) = Return r -> kills (events (invoke w c)) = 0%nat) /\
  (forall k cmd o e,
     outcome (invoke w c) = Raise (CalledProcessError k cmd o e) ->
     kills (events (invoke w c)) = 0%nat).
Proof.
  assert (Hexit : forall stdout stderr rc,
             target_exits w c stdout stderr rc ->
             kills (events (invoke w c)) = 0%nat).
  { intros stdout stderr rc Hx. by_supervision w c; event_cases; reflexivity. }
  split; [|split; [|split; [|split]]].
  - apply (supervision_kills _ _ _ _ _ _ (invoke_supervision w c)).
  - intros pg sig Hk. by_supervision w c; event_cases.
    split.
    + eexists _, _. right. left. reflexivity.
    + eexists [_], [_], _. reflexivity.
  - exact Hexit.
  - intros r Hret.
    destruct (Return_from_exit w c r Hret) as (o & e & Hx & _).
    apply (Hexit o e 0 Hx).
  - intros k cmd o e Hraise.
    destruct (CalledProcessError_from_exit w c k cmd o e Hraise) as (_ & Hx & _).
    apply (Hexit o e k Hx).
Qed.

Lemma kill_only_after_timeout_witness :
  target_times_out sleeps_30 (RunBinary ["sleep"; "30"] (Some 2) None ∅) /\
  kills (events (invoke (says hello [] 7) (RunBinary ["helloworld"] None None ∅)))
  = 0%nat.
Proof.
  split.
  - apply (proj1 (proj2 (kill_only_after_timeout
                           sleeps_30 (RunBinary ["sleep"; "30"] (Some 2) None ∅)))
             4242 SIGKILL).
    vm_compute. right. right. left. reflexivity.
  - apply (proj1 (proj2 (proj2 (kill_only_after_timeout
                           (says hello [] 7) (RunBinary ["helloworld"] None None ∅))))
             hello [] 7).
    exists 4242, 10. vm_compute. right. left. reflexivity.
Defined.

(** C10: what a call returns is the strict UTF-8 decoding of the bytes
    that a child that exited with status 0 wrote, not the bytes; and once
    both writes of the output have returned, a call whose child exited
    with status 0 returns these decodings or raises [UnicodeDecodeError],
    for [stdout] first.  There are calls that raise it, of [run_binary]
    and of [run_native_binary]. *)
Theorem invalid_utf8_raises_UnicodeDecodeError :
  (forall w c out err,
     outcome (invoke w c) = Return (out, err) ->
     exists stdout stderr,
       target_exits w c stdout stderr 0 /\
       decode stdout = Some out /\ decode stderr = Some err) /\
  (forall w c stdout stderr,
     target_exits w c stdout stderr 0 ->
     forwarding_returns w stdout stderr ->
     outcome (invoke w c)
     = match decode stdout with
       | None => Raise (UnicodeDecodeError stdout)
       | Some out =>
         match decode stderr with
         | None => Raise (UnicodeDecodeError stderr)
         | Some err => Return (out, err)
         end
       end) /\
  (exists w args stdout stderr,
     target_exits w (RunBinary args None None ∅) stdout stderr 0 /\
     decode stdout = None /\
     outcome (run_binary w args None None ∅)
     = Raise (UnicodeDecodeError stdout)) /\
  (exists w args stdout stderr,
     target_exits w (RunNativeBinary args None None ∅) stdout stderr 0 /\
     decode stdout = None /\
     outcome (run_native_binary w args None None ∅)
     = Raise (UnicodeDecodeError stdout)).
Proof.
  split; [|split; [|split]].
  - intros w c out err Hret.
    destruct (Return_from_exit w c (out, err) Hret)
      as (stdout & stderr & Hexit & Ho & He & _).
    exists stdout, stderr. repeat split; assumption.
  - intros w c stdout stderr Hexit [Ho He].
    by_supervision w c; event_cases; first [congruence | reflexivity].
  - exists (says [xff] [] 0), ["helloworld"], [xff], []. split.
    + exists 4242, 10. vm_compute. right. left. reflexivity.
    + split; reflexivity.
  - exists (says [xff] [] 0), ["helper"], [xff], []. split.
    + exists 4242, 10. vm_compute. right. left. reflexivity.
    + split; reflexivity.
Qed.

Lemma invalid_utf8_raises_UnicodeDecodeError_witness :
  outcome (invoke (says [xff] [] 0) (RunNativeBinary ["helper"] None None ∅))
  = Raise (UnicodeDecodeError [xff]).
Proof.
  apply (proj1 (proj2 invalid_utf8_raises_UnicodeDecodeError)
           (says [xff] [] 0) (RunNativeBinary ["helper"] None None ∅) [xff] []).
  - exists 4242, 10. vm_compute. right. left. reflexivity.
  - split; reflexivity.
Defined.

(** ** More of [regression.py] *)

(** *** What a call hands to [subprocess.Popen] *)

Lemma no_repeated_keyword (explicit : list (string * KwVal))
    (kwds : gmap string KwVal) :
  existsb (fun kv => bool_decide (is_Some (kwds !! kv.1))) explicit = false <->
  forall k, In k (map fst explicit) -> kwds !! k = None.
Proof.
  induction explicit as [|[k0 v0] explicit IH]; cbn [existsb map In fst].
  - split; [intros _ k [] | reflexivity].
  - rewrite orb_false_iff, IH, bool_decide_eq_false. split.
    + intros [Hk Hrest] k [<-|Hin]; [|apply Hrest, Hin].
      destruct (kwds !! k0) eqn:E; [|reflexivity].
      exfalso. apply Hk. eexists. reflexivity.
    + intros H. split.
      * rewrite (H k0 (or_introl eq_refl)). intros [v Hv]. discriminate Hv.
      * intros k Hin. apply H. right. exact Hin.
Qed.

(** Unfolds a call down to the answers of the world. *)
Ltac open_call :=
  unfold events, outcome, invoke, run_binary, run_native_binary, Popen in *;
  cbn [call_argv call_kwargs call_kwds call_args call_timeout own_keywords] in *.

Ltac wait_cases H :=
  unfold with_process, process_communicate, finally, print_output,
    stream_write in H;
  cbn -[write_ok] in H;
  match type of H with context [communicate ?p ?T] =>
    let rc := fresh "rc" in
    destruct (communicate p T) as [? ? rc|] eqn:?; cbn -[write_ok] in H;
    [repeat match type of H with
            | context [write_ok ?h ?t] =>
              destruct (write_ok h t); cbn -[write_ok] in H
            end;
     destruct (rc =? 0) eqn:?; cbn in H;
     try rewrite decode_both in H; cbn in H|]
  end.

Ltac log_cases :=
  repeat match goal with
  | H : In _ (_ :: _) |- _ => destruct H as [H|H]
  | H : In _ [] |- _ => destruct H
  | H : _ \/ _ |- _ => destruct H as [H|H]
  | H : False |- _ => destruct H
  | H : ex _ |- _ => destruct H
  | H : _ /\ _ |- _ => destruct H
  end;
  simplify_eq.

(** Every process creation of a call is the one that the call describes:
    its argument vector and keywords, with no key of the caller repeating
    one of the call's own; and the log tells what the world answered. *)
Lemma popen_logged (w : World) (c : Call)
    (argv : list string) (kw : gmap string KwVal) (res : Started) :
  In (EvPopen argv kw res) (events (invoke w c)) ->
  argv = call_argv w c /\ kw = call_kwargs w c /\
  (forall k, In k (own_keywords c) -> call_kwds c !! k = None) /\
  match res with
  | Child p => exists proc, popen w argv kw = inr proc /\ pid proc = p
  | Refused errno => popen w argv kw = inl errno
  end.
Proof.
  destruct c as [args timeout prefix kwds | args timeout libpath kwds];
    open_call; intros Hev.
  - destruct (path_exists w (loader_path w)); [|destruct Hev].
    destruct (path_exists w (libpal_path w)); [|destruct Hev].
    match type of Hev with context [existsb ?f ?l] =>
      destruct (existsb f l) eqn:Ex end; [destruct Hev|].
    pose proof (proj1 (no_repeated_keyword _ _) Ex) as Hno; clear Ex.
    match type of Hev with context [popen w ?a ?k] =>
      destruct (popen w a k) as [errno|p] eqn:Ep end.
    + cbn in Hev. log_cases.
      split; [reflexivity|split; [reflexivity|split; [exact Hno|exact Ep]]].
    + wait_cases Hev;
        log_cases;
        (split; [reflexivity|split; [reflexivity|split; [exact Hno|]]]);
        eexists; (split; [exact Ep | reflexivity]).
  - match type of Hev with context [existsb ?f ?l] =>
      destruct (existsb f l) eqn:Ex end; [destruct Hev|].
    pose proof (proj1 (no_repeated_keyword _ _) Ex) as Hno; clear Ex.
    match type of Hev with context [popen w ?a ?k] =>
      destruct (popen w a k) as [errno|p] eqn:Ep end.
    + cbn in Hev. log_cases.
      split; [reflexivity|split; [reflexivity|split; [exact Hno|exact Ep]]].
    + wait_cases Hev;
        log_cases;
        (split; [reflexivity|split; [reflexivity|split; [exact Hno|]]]);
        eexists; (split; [exact Ep | reflexivity]).
Qed.

(** The keywords of every process creation connect both streams to pipes
    and make the child a group leader. *)
Lemma child_leads_piped_group (w : World) (c : Call)
    (argv : list string) (kw : gmap string KwVal) (res : Started) :
  In (EvPopen argv kw res) (events (invoke w c)) -> piped_group_leader kw.
Proof.
  intros Hev. apply popen_logged in Hev as (_ & -> & _ & _).
  destruct c; cbn [call_kwargs];
    apply explicit_piped_group_leader; repeat split; reflexivity.
Qed.

(** X1: the process of either entry point is created with both streams on
    pipes and as the leader of a new process group, whether or not the
    creation succeeds, and every other keyword is exactly what the caller
    gave: present with the caller's value, or absent. *)
Theorem child_keywords (w : World) (c : Call)
    (argv : list string) (kw : gmap string KwVal) (res : Started) :
  In (EvPopen argv kw res) (events (invoke w c)) ->
  piped_group_leader kw /\
  (forall k, ~ In k (own_keywords c) -> kw !! k = call_kwds c !! k).
Proof.
  intros Hev. apply popen_logged in Hev as (_ & -> & _ & _).
  destruct c as [args timeout prefix kwds | args timeout libpath kwds];
    cbn [call_kwargs call_kwds own_keywords].
  - split.
    + apply explicit_piped_group_leader. repeat split; reflexivity.
    + intros k Hk. apply lookup_union_r, not_elem_of_list_to_map_1.
      intros Hin. apply Hk. apply list_elem_of_In in Hin. exact Hin.
  - split.
    + apply explicit_piped_group_leader. repeat split; reflexivity.
    + intros k Hk. apply lookup_union_r, not_elem_of_list_to_map_1.
      intros Hin. apply Hk. apply list_elem_of_In in Hin. exact Hin.
Qed.

Lemma child_keywords_witness :
  piped_group_leader
    (call_kwargs (says hello [] 0)
       (RunBinary ["helloworld"] None None {["cwd" := Other "/tmp"]})) /\
  (forall k,
     ~ In k (own_keywords
               (RunBinary ["helloworld"] None None {["cwd" := Other "/tmp"]})) ->
     call_kwargs (says hello [] 0)
       (RunBinary ["helloworld"] None None {["cwd" := Other "/tmp"]}) !! k
     = call_kwds
         (RunBinary ["helloworld"] None None {["cwd" := Other "/tmp"]}) !! k).
Proof.
  apply (child_keywords
           (says hello [] 0)
           (RunBinary ["helloworld"] None None {["cwd" := Other "/tmp"]})
           ["/usr/lib/gramine/direct/loader";
            "/usr/lib/gramine/direct/libpal.so"; "init"; "helloworld"]
           (call_kwargs (says hello [] 0)
              (RunBinary ["helloworld"] None None {["cwd" := Other "/tmp"]}))
           (Child 4242)).
  left. reflexivity.
Defined.

(** X2: a keyword of the caller that repeats one of the call's own never
    reaches [subprocess.Popen]: no process is created, the call does not
    return, and once its own checks pass it raises a [TypeError], whose
    message is the interpreter's. *)
Theorem repeated_keyword_is_TypeError (w : World) (c : Call) (k : string) :
  In k (own_keywords c) ->
  is_Some (call_kwds c !! k) ->
  events (invoke w c) = [] /\
  (forall r, outcome (invoke w c) <> Return r) /\
  (checks_pass w c ->
   exists msg, outcome (invoke w c) = Raise (TypeError msg)).
Proof.
  intros Hk Hsome.
  assert (Hclash : forall explicit : list (string * KwVal),
             In k (map fst explicit) ->
             existsb (fun kv => bool_decide (is_Some (call_kwds c !! kv.1)))
                     explicit = true).
  { intros explicit Hin.
    destruct (existsb _ explicit) eqn:E; [reflexivity|].
    pose proof (proj1 (no_repeated_keyword _ _) E k Hin) as Hnone.
    rewrite Hnone in Hsome. destruct Hsome as [v Hv]. discriminate Hv. }
  destruct c as [args timeout prefix kwds | args timeout libpath kwds];
    open_call; cbn [checks_pass].
  - rewrite (Hclash [("stdout", PIPE); ("stderr", PIPE);
                     ("preexec_fn", os_setpgrp)] Hk).
    destruct (path_exists w (loader_path w));
      [destruct (path_exists w (libpal_path w))|]; cbn;
      (split; [reflexivity|split; [discriminate|]]);
      intros [? ?]; try discriminate; eexists; reflexivity.
  - rewrite (Hclash [("stdout", PIPE); ("stderr", PIPE);
                     ("env", EnvMap match libpath with
                                    | Some l => <["LD_LIBRARY_PATH" := l]> (environ w)
                                    | None => environ w
                                    end);
                     ("preexec_fn", os_setpgrp)] Hk).
    cbn. split; [reflexivity|split; [discriminate|]].
    intros _. eexists. reflexivity.
Qed.

Lemma repeated_keyword_is_TypeError_witness :
  exists msg,
    outcome (invoke (says hello [] 0)
                    (RunNativeBinary ["helper"] None None {["env" := EnvMap ∅]}))
    = Raise (TypeError msg).
Proof.
  apply (repeated_keyword_is_TypeError
           (says hello [] 0)
           (RunNativeBinary ["helper"] None None {["env" := EnvMap ∅]}) "env").
  - right. right. left. reflexivity.
  - exists (EnvMap ∅). reflexivity.
  - exact I.
Defined.

(** X3: the child of [run_native_binary] gets a copy of the environment of
    the harness in which only [LD_LIBRARY_PATH] may differ: it is the
    [libpath] of the caller when one is given, and the copy is unchanged
    when none is. *)
Theorem native_child_environment (w : World) (args : list string)
    (timeout : option Z) (libpath : option string) (kwds : gmap string KwVal)
    (argv : list string) (kw : gmap string KwVal) (res : Started) :
  In (EvPopen argv kw res)
     (events (run_native_binary w args timeout libpath kwds)) ->
  exists env,
    kw !! "env" = Some (EnvMap env) /\
    (forall k, k <> "LD_LIBRARY_PATH" -> env !! k = environ w !! k) /\
    (forall l, libpath = Some l -> env !! "LD_LIBRARY_PATH" = Some l) /\
    (libpath = None -> env = environ w).
Proof.
  intros Hev.
  apply (popen_logged w (RunNativeBinary args timeout libpath kwds))
    in Hev as (_ & -> & _ & _).
  cbn [call_kwargs]. eexists. split; [|split; [|split]].
  - apply lookup_union_Some_l. reflexivity.
  - intros k Hk. destruct libpath; [|reflexivity].
    apply lookup_insert_ne. congruence.
  - intros l ->. apply lookup_insert_eq.
  - intros ->. reflexivity.
Qed.

Lemma native_child_environment_witness :
  exists env,
    call_kwargs (says hello [] 0)
      (RunNativeBinary ["helper"] None (Some "/opt/lib") ∅) !! "env"
    = Some (EnvMap env) /\
    (forall k, k <> "LD_LIBRARY_PATH" ->
               env !! k = environ (says hello [] 0) !! k) /\
    (forall l, Some "/opt/lib" = Some l -> env !! "LD_LIBRARY_PATH" = Some l) /\
    (Some "/opt/lib" = None -> env = environ (says hello [] 0)).
Proof.
  apply (native_child_environment
           (says hello [] 0) ["helper"] None (Some "/opt/lib") ∅
           ["helper"]
           (call_kwargs (says hello [] 0)
              (RunNativeBinary ["helper"] None (Some "/opt/lib") ∅))
           (Child 4242)).
  left. reflexivity.
Defined.

(** X4: when the operating system refuses to create the process, the call
    raises the [OSError] it got and has done nothing else: no wait, no
    kill, nothing printed, no [with] block to leave. *)
Theorem refused_launch_propagates (w : World) (c : Call)
    (argv : list string) (kw : gmap string KwVal) (errno : Z) :
  In (EvPopen argv kw (Refused errno)) (events (invoke w c)) ->
  invoke w c = ([EvPopen argv kw (Refused errno)], Raise (OSError errno)) /\
  popen w argv kw = inl errno.
Proof.
  intros Hev. split.
  - by_supervision w c; event_cases. reflexivity.
  - apply popen_logged in Hev as (_ & _ & _ & Hp). exact Hp.
Qed.

Lemma refused_launch_propagates_witness :
  invoke (refusing 13 (says hello [] 0)) (RunNativeBinary ["helper"] None None ∅)
  = ([EvPopen ["helper"]
        (call_kwargs (refusing 13 (says hello [] 0))
           (RunNativeBinary ["helper"] None None ∅))
        (Refused 13)],
     Raise (OSError 13)) /\
  popen (refusing 13 (says hello [] 0)) ["helper"]
        (call_kwargs (refusing 13 (says hello [] 0))
           (RunNativeBinary ["helper"] None None ∅))
  = inl 13.
Proof.
  apply (refused_launch_propagates
           (refusing 13 (says hello [] 0))
           (RunNativeBinary ["helper"] None None ∅)).
  left. reflexivity.
Defined.

(** X5: a call creates at most one process, and a child that was started
    is always waited for at the very end, however the call ends: the log
    is the creation, then steps that neither create nor reap, then the end
    of the [with] block of that same child. *)
Theorem started_child_is_reaped (w : World) (c : Call)
    (argv : list string) (kw : gmap string KwVal) (p : Z) :
  In (EvPopen argv kw (Child p)) (events (invoke w c)) ->
  exists mid,
    events (invoke w c)
    = [EvPopen argv kw (Child p)] ++ mid ++ [EvPopenExit p] /\
    forallb (fun ev => negb (is_lifecycle ev)) mid = true.
Proof.
  intros Hev. by_supervision w c; event_cases.
  - exists [EvCommunicate p (bound_used w c) TimeoutExpired; EvKillpg p SIGKILL].
    split; reflexivity.
  - eexists [_]. split; reflexivity.
  - eexists [_; _]. split; reflexivity.
  - eexists [_; _; _]. split; reflexivity.
  - eexists [_; _; _]. split; reflexivity.
Qed.

Lemma started_child_is_reaped_witness :
  exists mid,
    events (invoke sleeps_30 (RunBinary ["sleep"; "30"] None None ∅))
    = [EvPopen (call_argv sleeps_30 (RunBinary ["sleep"; "30"] None None ∅))
               (call_kwargs sleeps_30 (RunBinary ["sleep"; "30"] None None ∅))
               (Child 4242)]
      ++ mid ++ [EvPopenExit 4242] /\
    forallb (fun ev => negb (is_lifecycle ev)) mid = true.
Proof.
  apply (started_child_is_reaped
           sleeps_30 (RunBinary ["sleep"; "30"] None None ∅)).
  left. reflexivity.
Defined.

(** X6: a call that returns [(out, err)] has printed exactly these two texts
    on [sys.stdout] and [sys.stderr], and they are the UTF-8 decodings of
    what a child that exited with status 0 wrote. *)
Theorem returned_text_was_printed (w : World) (c : Call) (out err : pystr) :
  outcome (invoke w c) = Return (out, err) ->
  In (EvStdoutWrite out) (events (invoke w c)) /\
  In (EvStderrWrite err) (events (invoke w c)) /\
  exists stdout stderr,
    target_exits w c stdout stderr 0 /\
    decode stdout = Some out /\ decode stderr = Some err.
Proof.
  intros Hret. by_supervision w c; try discriminate Hret.
  unfold decoded in Hret.
  destruct (decode stdout) as [o|] eqn:Ho; [|discriminate Hret].
  destruct (decode stderr) as [e|] eqn:He; [|discriminate Hret].
  injection Hret as -> ->.
  rewrite (decode_surrogateescape_strict _ _ Ho).
  rewrite (decode_surrogateescape_strict _ _ He).
  split; [right; right; left; reflexivity|].
  split; [right; right; right; left; reflexivity|].
  exists stdout, stderr. split; [|split; assumption].
  eexists _, _. right. left. reflexivity.
Qed.

Lemma returned_text_was_printed_witness :
  In (EvStdoutWrite [104; 101; 108; 108; 111; 10])
     (events (invoke (says hello [] 0) (RunBinary ["helloworld"] None None ∅))).
Proof.
  apply (returned_text_was_printed
           (says hello [] 0) (RunBinary ["helloworld"] None None ∅)
           [104; 101; 108; 108; 111; 10] []).
  reflexivity.
Defined.

(** X7: nothing is printed unless the wait returned: a text written to
    [sys.stdout] is the tolerant decoding of the captured [stdout] of a
    child that exited, the one written to [sys.stderr] that of its
    [stderr], and [sys.stderr] is written only after [sys.stdout] was. *)
Theorem printed_only_after_exit (w : World) (c : Call) (text : pystr) :
  (In (EvStdoutWrite text) (events (invoke w c)) ->
   exists stdout stderr rc,
     target_exits w c stdout stderr rc /\
     text = decode_surrogateescape stdout) /\
  (In (EvStderrWrite text) (events (invoke w c)) ->
   exists stdout stderr rc,
     target_exits w c stdout stderr rc /\
     text = decode_surrogateescape stderr /\
     exists pre post,
       events (invoke w c)
       = pre ++ [EvStdoutWrite (decode_surrogateescape stdout);
                 EvStderrWrite text] ++ post).
Proof.
  split; intros Hev; by_supervision w c; event_cases.
  all: eexists _, _, _; split; [eexists _, _; right; left; reflexivity|].
  all: try reflexivity.
  all: split; [reflexivity|]; eexists [_; _], [_]; reflexivity.
Qed.

Lemma printed_only_after_exit_witness :
  exists stdout stderr rc,
    target_exits (says hello [] 7) (RunBinary ["helloworld"] None None ∅)
                 stdout stderr rc /\
    [104; 101; 108; 108; 111; 10] = decode_surrogateescape stdout.
Proof.
  apply (proj1 (printed_only_after_exit
                  (says hello [] 7) (RunBinary ["helloworld"] None None ∅)
                  [104; 101; 108; 108; 111; 10])).
  right. right. left. reflexivity.
Defined.

(** X8: a requested timeout that does not exceed [DEFAULT_TIMEOUT] changes
    nothing at all: the call runs exactly as with no timeout requested. *)
Theorem small_timeout_is_ignored (w : World) (c : Call) (t : Z) :
  t <= DEFAULT_TIMEOUT w ->
  invoke w (with_timeout (Some t) c) = invoke w (with_timeout None c).
Proof.
  intros Ht.
  assert (Hmax : py_max (DEFAULT_TIMEOUT w) t = DEFAULT_TIMEOUT w).
  { rewrite py_max_max. lia. }
  destruct c as [args timeout prefix kwds | args timeout libpath kwds];
    cbn [with_timeout invoke]; unfold run_binary, run_native_binary;
    rewrite Hmax; reflexivity.
Qed.

Lemma small_timeout_is_ignored_witness :
  invoke sleeps_30 (with_timeout (Some 2) (RunBinary ["sleep"; "30"] None None ∅))
  = invoke sleeps_30 (with_timeout None (RunBinary ["sleep"; "30"] None None ∅)).
Proof.
  apply (small_timeout_is_ignored sleeps_30). vm_compute. discriminate.
Defined.

(** X9: the default bound follows the variable [SGX] of the environment as
    it was when the module was imported: a call that requests no timeout
    waits 20 seconds when [SGX] was set to 1 and 10 seconds otherwise, and
    no call waits less than that.  In a run that has not changed [SGX]
    since, this is the variable of the current environment. *)
Theorem default_timeout_by_mode (w : World) (c : Call)
    (p T : Z) (res : CommResult) :
  In (EvCommunicate p T res) (events (invoke w c)) ->
  (import_environ w !! "SGX" = Some "1" ->
   20 <= T /\ (call_timeout c = None -> T = 20)) /\
  (import_environ w !! "SGX" <> Some "1" ->
   10 <= T /\ (call_timeout c = None -> T = 10)) /\
  (environ w !! "SGX" = import_environ w !! "SGX" ->
   (environ w !! "SGX" = Some "1" ->
    20 <= T /\ (call_timeout c = None -> T = 20)) /\
   (environ w !! "SGX" <> Some "1" ->
    10 <= T /\ (call_timeout c = None -> T = 10))).
Proof.
  intros Hev.
  assert (HT : T = bound_used w c).
  { by_supervision w c; event_cases; reflexivity. }
  subst T.
  assert (Himport :
    (import_environ w !! "SGX" = Some "1" ->
     20 <= bound_used w c /\
     (call_timeout c = None -> bound_used w c = 20)) /\
    (import_environ w !! "SGX" <> Some "1" ->
     10 <= bound_used w c /\
     (call_timeout c = None -> bound_used w c = 10))).
  { unfold bound_used, DEFAULT_TIMEOUT, HAS_SGX. split; intros Hsgx.
    - rewrite (bool_decide_eq_true_2 _ Hsgx).
      destruct (call_timeout c); split; try lia; try discriminate; reflexivity.
    - rewrite (bool_decide_eq_false_2 _ Hsgx).
      destruct (call_timeout c); split; try lia; try discriminate; reflexivity. }
  destruct Himport as [Hon Hoff].
  split; [exact Hon|split; [exact Hoff|]].
  intros ->. split; [exact Hon|exact Hoff].
Qed.

Lemma default_timeout_by_mode_witness :
  20 <= 20 /\ (@None Z = None -> 20 = 20).
Proof.
  refine (proj1 (default_timeout_by_mode
                   (with_environ {["SGX" := "1"]} sleeps_30)
                   (RunNativeBinary ["sleep"; "30"] None None ∅)
                   4242 20 TimeoutExpired _) _).
  - right. left. reflexivity.
  - reflexivity.
Defined.

(** *** [expect_returncode] *)

(** X10: the block [with self.expect_returncode(C)] ends normally in one
    case only: [C] is not 0 and the body raised [CalledProcessError] with
    the return code [C]. *)
Theorem expect_returncode_passes_iff {A : Type} (C : Z) (body : M A) :
  outcome (expect_returncode C body) = Return tt <->
  C <> 0 /\
  exists cmd o e, outcome body = Raise (CalledProcessError C cmd o e).
Proof.
  unfold expect_returncode, outcome.
  destruct (C =? 0) eqn:EC; range_hyps.
  - split; [discriminate | intros [HC _]; contradiction].
  - destruct body as [tr [a|exc]]; cbn.
    + split; [discriminate | intros (_ & cmd & o & e & H); discriminate H].
    + destruct exc as [msg|msg|msg|errno|obj|k cmd o e|obj]; cbn;
        try (split; [discriminate | intros (_ & ? & ? & ? & H); discriminate H]).
      unfold assertEqual. destruct (k =? C) eqn:Ek; range_hyps; cbn.
      * subst k. split; [|reflexivity].
        intros _. split; [assumption|]. exists cmd, o, e. reflexivity.
      * split; [discriminate|].
        intros (_ & ? & ? & ? & H). injection H as -> _ _ _. contradiction.
Qed.

(** X11: no [CalledProcessError] ever leaves the block: whatever the body
    does and whatever code is expected, the block ends normally or with
    another exception. *)
Theorem expect_returncode_never_CalledProcessError {A : Type}
    (C : Z) (body : M A) (k : Z) (cmd : list string) (o e : bytes) :
  outcome (expect_returncode C body) <> Raise (CalledProcessError k cmd o e).
Proof.
  unfold expect_returncode, outcome.
  destruct (C =? 0); [discriminate|].
  destruct body as [tr [a|exc]]; cbn; [discriminate|].
  destruct exc; cbn; try discriminate.
  unfold assertEqual. destruct (_ =? C); discriminate.
Qed.

(** X12: around a supervised call the block ends normally exactly when [C]
    is not 0, the child exited, within the bound, with status [C], and
    both writes of its output returned. *)
Theorem expected_exit_passes (w : World) (c : Call) (C : Z) :
  outcome (expect_returncode C (invoke w c)) = Return tt <->
  C <> 0 /\
  exists stdout stderr,
    target_exits w c stdout stderr C /\ forwarding_returns w stdout stderr.
Proof.
  rewrite expect_returncode_passes_iff. split.
  - intros (HC & cmd & o & e & Hraise). split; [assumption|].
    exists o, e. split.
    + apply CalledProcessError_from_exit in Hraise as (_ & Hexit & _).
      exact Hexit.
    + apply CalledProcessError_forwarded in Hraise as (Hfw & _). exact Hfw.
  - intros (HC & stdout & stderr & Hexit & Ho & He). split; [assumption|].
    exists (call_args c), stdout, stderr.
    by_supervision w c; event_cases; first [congruence | reflexivity].
Qed.

(** *** Paths, the environment and the debugger *)

Lemma string_app_assoc (a b c : string) : (a +:+ b) +:+ c = a +:+ (b +:+ c).
Proof.
  induction a as [|x a IH]; [reflexivity|].
  change (String x ((a +:+ b) +:+ c) = String x (a +:+ b +:+ c)).
  rewrite IH. reflexivity.
Qed.

Lemma string_app_inv_head (a b c : string) : a +:+ b = a +:+ c -> b = c.
Proof.
  apply String.app_inj.
Qed.

Lemma concat_snoc (sep : string) (l : list string) (n : string) :
  l <> [] ->
  String.concat sep (l ++ [n]) = String.concat sep l +:+ sep +:+ n.
Proof.
  induction l as [|x [|y l] IH]; intros Hne.
  - contradiction.
  - reflexivity.
  - change (String.concat sep ((x :: y :: l) ++ [n]))
      with (x +:+ sep +:+ String.concat sep ((y :: l) ++ [n])).
    rewrite IH by discriminate.
    change (String.concat sep (x :: y :: l))
      with (x +:+ sep +:+ String.concat sep (y :: l)).
    rewrite !string_app_assoc. reflexivity.
Qed.

(** Below a path that has a component, [p / name] reads as [p], a slash
    and [name]. *)
Lemma fspath_path_div (p : Path) (name : string) :
  names p <> [] -> fspath (path_div p name) = fspath p +:+ "/" +:+ name.
Proof.
  intros Hne. unfold fspath, path_div. cbn [names root].
  destruct (names p) as [|x l] eqn:E; [contradiction|].
  destruct ((x :: l) ++ [name]) eqn:E'; [discriminate E'|]. rewrite <- E'.
  rewrite concat_snoc by discriminate. rewrite string_app_assoc. reflexivity.
Qed.

Lemma pal_path_names (w : World) : names (pal_path w) <> [].
Proof.
  unfold pal_path, path_div. cbn [names].
  destruct (names (CONFIG_PKGLIBDIR w)); discriminate.
Qed.

Lemma fspath_pal_file (w : World) (d f : string) :
  fspath (path_div_all (pal_path w) [d; f])
  = fspath (pal_path w) +:+ "/" +:+ d +:+ "/" +:+ f.
Proof.
  unfold path_div_all. cbn [fold_left].
  rewrite fspath_path_div.
  - rewrite fspath_path_div by apply pal_path_names.
    rewrite !string_app_assoc. reflexivity.
  - unfold path_div. cbn [names]. destruct (names (pal_path w)); discriminate.
Qed.

(** X13: the loader and libpal are two different files of one directory,
    [pal_path]: their paths are that of the directory followed by /loader
    and by /libpal.so. *)
Theorem artifacts_in_pal_directory (w : World) :
  fspath (loader_path w) = fspath (pal_path w) +:+ "/loader" /\
  fspath (libpal_path w) = fspath (pal_path w) +:+ "/libpal.so" /\
  fspath (loader_path w) <> fspath (libpal_path w).
Proof.
  assert (Hl : fspath (loader_path w) = fspath (pal_path w) +:+ "/loader").
  { unfold loader_path. rewrite fspath_path_div by apply pal_path_names.
    reflexivity. }
  assert (Hp : fspath (libpal_path w) = fspath (pal_path w) +:+ "/libpal.so").
  { unfold libpal_path. rewrite fspath_path_div by apply pal_path_names.
    reflexivity. }
  split; [exact Hl|split; [exact Hp|]].
  rewrite Hl, Hp. intros H. apply string_app_inv_head in H. discriminate H.
Qed.

(** X14: [get_env] gives the value of a variable that is set in the
    environment of the harness at the time of the call, and fails the
    test, naming the variable, for one that is not.  It does not tell the
    mode: when [SGX] was set to 1 only after the module was imported,
    [get_env] gives 1 and the default timeout is still 10 seconds. *)
Theorem get_env_cases (w : World) (name : string) :
  (forall value, environ w !! name = Some value ->
                 get_env w name = ([], Return value)) /\
  (environ w !! name = None ->
   get_env w name
   = ([], Raise (AssertionError
                   ("environment variable " +:+ name +:+ " not set")))) /\
  (environ w !! "SGX" = Some "1" -> import_environ w !! "SGX" <> Some "1" ->
   get_env w "SGX" = ([], Return "1") /\ DEFAULT_TIMEOUT w = 10).
Proof.
  unfold get_env, DEFAULT_TIMEOUT, HAS_SGX. split; [|split].
  - intros value ->. reflexivity.
  - intros ->. reflexivity.
  - intros -> Himport. rewrite (bool_decide_eq_false_2 _ Himport).
    split; reflexivity.
Qed.

Lemma get_env_cases_witness :
  get_env (with_environ {["SGX" := "1"]} (says hello [] 0)) "SGX"
  = ([], Return "1") /\
  get_env (says hello [] 0) "SGX"
  = ([], Raise (AssertionError "environment variable SGX not set")) /\
  get_env (with_environ_now {["SGX" := "1"]} (says hello [] 0)) "SGX"
  = ([], Return "1") /\
  DEFAULT_TIMEOUT (with_environ_now {["SGX" := "1"]} (says hello [] 0)) = 10.
Proof.
  split; [|split].
  - apply (proj1 (get_env_cases
                    (with_environ {["SGX" := "1"]} (says hello [] 0)) "SGX")).
    reflexivity.
  - apply (proj1 (proj2 (get_env_cases (says hello [] 0) "SGX"))).
    reflexivity.
  - apply (proj2 (proj2 (get_env_cases
                           (with_environ_now {["SGX" := "1"]} (says hello [] 0))
                           "SGX"))).
    + reflexivity.
    + vm_compute. discriminate.
Defined.

Lemma expect_returncode_passes_iff_witness :
  outcome (expect_returncode 7
             (invoke (says hello [] 7) (RunBinary ["helloworld"] None None ∅)))
  = Return tt.
Proof.
  apply (proj2 (expect_returncode_passes_iff 7
                  (invoke (says hello [] 7)
                          (RunBinary ["helloworld"] None None ∅)))).
  split; [lia|]. exists ["helloworld"], hello, []. reflexivity.
Defined.

Lemma expected_exit_passes_witness :
  outcome (expect_returncode 7
             (invoke (says hello [] 7) (RunNativeBinary ["helper"] None None ∅)))
  = Return tt.
Proof.
  apply (proj2 (expected_exit_passes
                  (says hello [] 7) (RunNativeBinary ["helper"] None None ∅) 7)).
  split; [lia|]. exists hello, []. split.
  - exists 4242, 10. right. left. reflexivity.
  - split; reflexivity.
Defined.

(** What [run_gdb] is when the caller passed neither [prefix] nor [env]. *)
Lemma run_gdb_unfold (w : World) (args : list string) (gdb_script : string)
    (timeout : option Z) (kwds : gmap string KwVal) :
  (exists msg, run_gdb w args gdb_script timeout kwds = ([], Raise (TypeError msg)) /\
               (is_Some (kwds !! "prefix") \/ is_Some (kwds !! "env"))) \/
  (kwds !! "prefix" = None /\ kwds !! "env" = None /\
   exists env,
     (forall k, k <> "LD_PRELOAD" -> env !! k = environ w !! k) /\
     (HAS_SGX w = false -> env = environ w) /\
     (HAS_SGX w = true ->
      env !! "LD_PRELOAD"
      = Some ((fspath (pal_path w) +:+ "/gdb_integration/sgx_gdb.so")
              +:+ ":" +:+ default "" (environ w !! "LD_PRELOAD"))) /\
     run_gdb w args gdb_script timeout kwds
     = invoke w
         (RunBinary args timeout
            (Some (["gdb"; "-q"; "-x";
                    fspath (pal_path w)
                    +:+ (if HAS_SGX w
                         then "/gdb_integration/gramine_sgx_gdb.py"
                         else "/gdb_integration/gramine_linux_gdb.py");
                    "-x"; gdb_script; "-batch"; "-tty=/dev/null"; "--args"]))
            (<["env" := EnvMap env]> kwds))).
Proof.
  unfold run_gdb.
  destruct (HAS_SGX w) eqn:Hsgx;
    (destruct (kwds !! "prefix") as [v|] eqn:Ep;
     [left; eexists; split; [reflexivity|left; eexists; reflexivity]|]);
    (destruct (kwds !! "env") as [v|] eqn:Ee;
     [left; eexists; split; [reflexivity|right; eexists; reflexivity]|]);
    right; (split; [reflexivity|split; [reflexivity|]]).
  - refine (ex_intro _ (<["LD_PRELOAD" := _]> (environ w)) _).
    split; [|split; [|split]].
    + intros k Hk. apply lookup_insert_ne. congruence.
    + discriminate.
    + intros _. rewrite lookup_insert_eq. reflexivity.
    + cbn [invoke]. rewrite !fspath_pal_file. reflexivity.
  - exists (environ w). split; [|split; [|split]].
    + reflexivity.
    + reflexivity.
    + discriminate.
    + cbn [invoke]. rewrite fspath_pal_file. reflexivity.
Qed.

(** X15: under [run_gdb] the process created is gdb itself, in batch mode
    with its terminal on /dev/null, running the integration script of the
    mode and then the script of the caller, with the loader command line
    of [run_binary] after [--args]; like every child it has its streams on
    pipes and leads a new process group. *)
Theorem gdb_argument_vector (w : World) (args : list string)
    (gdb_script : string) (timeout : option Z) (kwds : gmap string KwVal)
    (argv : list string) (kw : gmap string KwVal) (res : Started) :
  In (EvPopen argv kw res) (events (run_gdb w args gdb_script timeout kwds)) ->
  argv = ["gdb"; "-q"; "-x";
          fspath (pal_path w)
          +:+ (if HAS_SGX w
               then "/gdb_integration/gramine_sgx_gdb.py"
               else "/gdb_integration/gramine_linux_gdb.py");
          "-x"; gdb_script; "-batch"; "-tty=/dev/null"; "--args";
          fspath (loader_path w); fspath (libpal_path w); "init"] ++ args /\
  piped_group_leader kw.
Proof.
  intros Hev.
  destruct (run_gdb_unfold w args gdb_script timeout kwds)
    as [(msg & Heq & _) | (_ & _ & env & _ & _ & _ & Heq)];
    rewrite Heq in Hev; [destruct Hev|].
  split.
  - apply popen_logged in Hev as (-> & _). reflexivity.
  - apply child_leads_piped_group in Hev. exact Hev.
Qed.

Lemma gdb_argument_vector_witness :
  ["gdb"; "-q"; "-x"; "/usr/lib/gramine/sgx/gdb_integration/gramine_sgx_gdb.py";
   "-x"; "debug.gdb"; "-batch"; "-tty=/dev/null"; "--args";
   "/usr/lib/gramine/sgx/loader"; "/usr/lib/gramine/sgx/libpal.so"; "init";
   "debug"]
  = ["gdb"; "-q"; "-x";
     fspath (pal_path (with_environ {["SGX" := "1"]} (says hello [] 0)))
     +:+ (if HAS_SGX (with_environ {["SGX" := "1"]} (says hello [] 0))
          then "/gdb_integration/gramine_sgx_gdb.py"
          else "/gdb_integration/gramine_linux_gdb.py");
     "-x"; "debug.gdb"; "-batch"; "-tty=/dev/null"; "--args";
     fspath (loader_path (with_environ {["SGX" := "1"]} (says hello [] 0)));
     fspath (libpal_path (with_environ {["SGX" := "1"]} (says hello [] 0)));
     "init"] ++ ["debug"].
Proof.
  refine (proj1 (gdb_argument_vector
                   (with_environ {["SGX" := "1"]} (says hello [] 0))
                   ["debug"] "debug.gdb" None ∅ _
                   (call_kwargs (with_environ {["SGX" := "1"]} (says hello [] 0))
                      (RunBinary ["debug"] None None
                         {["env" := EnvMap
                             (<["LD_PRELOAD" :=
                                  "/usr/lib/gramine/sgx/gdb_integration/sgx_gdb.so:"]>
                                {["SGX" := "1"]})]}))
                   (Child 4242) _)).
  left. vm_compute. reflexivity.
Defined.

(** X16: gdb is started only when the caller passed neither [prefix] nor
    [env], and then with a copy of the environment of the harness in which
    only [LD_PRELOAD] may differ: under SGX it is the harness's
    [sgx_gdb.so], a colon, and the former value (empty when unset), so
    what was preloaded stays preloaded; otherwise the copy is unchanged. *)
Theorem gdb_child_environment (w : World) (args : list string)
    (gdb_script : string) (timeout : option Z) (kwds : gmap string KwVal)
    (argv : list string) (kw : gmap string KwVal) (res : Started) :
  In (EvPopen argv kw res) (events (run_gdb w args gdb_script timeout kwds)) ->
  kwds !! "prefix" = None /\ kwds !! "env" = None /\
  exists env,
    kw !! "env" = Some (EnvMap env) /\
    (forall k, k <> "LD_PRELOAD" -> env !! k = environ w !! k) /\
    (HAS_SGX w = false -> env = environ w) /\
    (HAS_SGX w = true ->
     env !! "LD_PRELOAD"
     = Some ((fspath (pal_path w) +:+ "/gdb_integration/sgx_gdb.so")
             +:+ ":" +:+ default "" (environ w !! "LD_PRELOAD"))).
Proof.
  intros Hev.
  destruct (run_gdb_unfold w args gdb_script timeout kwds)
    as [(msg & Heq & _) | (Hp & He & env & Hother & Hdirect & Hsgx & Heq)];
    rewrite Heq in Hev; [destruct Hev|].
  split; [exact Hp|split; [exact He|]].
  exists env. split; [|split; [exact Hother|split; assumption]].
  apply popen_logged in Hev as (_ & -> & _ & _). cbn [call_kwargs].
  rewrite lookup_union_r by reflexivity. apply lookup_insert_eq.
Qed.

Lemma gdb_child_environment_witness :
  exists env,
    call_kwargs (with_environ {["LD_PRELOAD" := "libfoo.so"; "SGX" := "1"]}
                   (says hello [] 0))
      (RunBinary ["debug"] None None
         {["env" := EnvMap
             (<["LD_PRELOAD" :=
                  "/usr/lib/gramine/sgx/gdb_integration/sgx_gdb.so:libfoo.so"]>
                {["LD_PRELOAD" := "libfoo.so"; "SGX" := "1"]})]}) !! "env"
    = Some (EnvMap env) /\
    env !! "LD_PRELOAD"
    = Some "/usr/lib/gramine/sgx/gdb_integration/sgx_gdb.so:libfoo.so".
Proof.
  destruct (gdb_child_environment
              (with_environ {["LD_PRELOAD" := "libfoo.so"; "SGX" := "1"]}
                 (says hello [] 0))
              ["debug"] "debug.gdb" None ∅
              ["gdb"; "-q"; "-x";
               "/usr/lib/gramine/sgx/gdb_integration/gramine_sgx_gdb.py";
               "-x"; "debug.gdb"; "-batch"; "-tty=/dev/null"; "--args";
               "/usr/lib/gramine/sgx/loader"; "/usr/lib/gramine/sgx/libpal.so";
               "init"; "debug"]
              (call_kwargs (with_environ {["LD_PRELOAD" := "libfoo.so"; "SGX" := "1"]}
                              (says hello [] 0))
                 (RunBinary ["debug"] None None
                    {["env" := EnvMap
                        (<["LD_PRELOAD" :=
                             "/usr/lib/gramine/sgx/gdb_integration/sgx_gdb.so:libfoo.so"]>
                           {["LD_PRELOAD" := "libfoo.so"; "SGX" := "1"]})]}))
              (Child 4242))
    as (_ & _ & env & Henv & _ & _ & Hpre).
  - left. vm_compute. reflexivity.
  - exists env. split; [exact Henv|]. apply Hpre. reflexivity.
Defined.

(** *** [has_debug]: the substring test on decoded text *)

Lemma str_startswith_spec (needle hay : pystr) :
  str_startswith needle hay = true <-> exists rest, hay = needle ++ rest.
Proof.
  revert hay. induction needle as [|n needle IH]; intros hay; cbn.
  - split; [intros _; exists hay; reflexivity | reflexivity].
  - destruct hay as [|h hay].
    + split; [discriminate | intros [rest H]; discriminate H].
    + rewrite andb_true_iff, Z.eqb_eq, IH. split.
      * intros [-> [rest ->]]. exists rest. reflexivity.
      * intros [rest [= -> ->]]. split; [reflexivity|]. exists rest. reflexivity.
Qed.

(** [needle in hay] holds exactly when [needle] occurs in [hay]. *)
Lemma str_contains_spec (needle hay : pystr) :
  str_contains needle hay = true <->
  exists before after, hay = before ++ needle ++ after.
Proof.
  induction hay as [|h hay IH]; cbn [str_contains];
    rewrite orb_true_iff, str_startswith_spec.
  - split.
    + intros [[rest H]|H]; [|discriminate H].
      exists [], rest. exact H.
    + intros (before & after & H). left.
      destruct before; [|discriminate H]. exists after. exact H.
  - rewrite IH. split.
    + intros [[rest H]|(before & after & ->)].
      * exists [], rest. exact H.
      * exists (h :: before), after. reflexivity.
    + intros (before & after & H). destruct before as [|b before].
      * left. exists after. exact H.
      * right. injection H as -> ->. exists before, after. reflexivity.
Qed.

Lemma encode_app (s t : pystr) :
  encode (s ++ t)
  = match encode s, encode t with
    | Some x, Some y => Some (x ++ y)
    | _, _ => None
    end.
Proof.
  unfold encode. induction s as [|cp s IH]; cbn [app encode_with].
  - destruct (encode_with encode_one_strict t); reflexivity.
  - rewrite IH. destruct (encode_one_strict cp); [|reflexivity].
    destruct (encode_with encode_one_strict s); [|reflexivity].
    destruct (encode_with encode_one_strict t); [|reflexivity].
    rewrite app_assoc. reflexivity.
Qed.

Lemma decode_one_ascii (a : byte) (r : bytes) :
  ord a < 0x80 -> decode_one (a :: r) = Some (ord a, r).
Proof.
  intros Ha. unfold decode_one.
  replace (ord a <? 0x80) with true by (symmetry; apply Z.ltb_lt; exact Ha).
  reflexivity.
Qed.

(** ASCII text is its own UTF-8 form. *)
Lemma encode_ascii (bs : bytes) :
  Forall (fun b => ord b < 0x80) bs -> encode (map ord bs) = Some bs.
Proof.
  intros H. apply encode_decode.
  induction H as [|b bs Hb _ IH]; [reflexivity|].
  rewrite decode_step, (decode_one_ascii b bs Hb), IH. reflexivity.
Qed.

Ltac pick_rest l :=
  first [ exists l; split; reflexivity
        | match l with _ :: ?t => pick_rest t end ].

(** A sequence never runs over an ASCII byte: what [decode_one] reads before
    such a byte it reads the same without the bytes that follow. *)
Lemma decode_one_local (b a : byte) (l r rest : bytes) (cp : Z) :
  ord a < 0x80 ->
  decode_one (b :: l ++ a :: r) = Some (cp, rest) ->
  exists l', rest = l' ++ a :: r /\ decode_one (b :: l) = Some (cp, l').
Proof.
  intros Ha.
  destruct l as [|c1 [|c2 [|c3 l]]]; cbn [app]; unfold decode_one;
    repeat match goal with
    | |- context [if ?c then _ else _] => destruct c eqn:?
    | |- context [match ?x with [] => _ | _ :: _ => _ end] => destruct x
    end;
    intros H; try discriminate H; injection H as <- <-;
    range_hyps; try (exfalso; lia).
  all: first [ pick_rest (@nil byte) | pick_rest [c1] | pick_rest [c1; c2]
             | pick_rest (c1 :: c2 :: c3 :: l) ].
Qed.

(** Well-formed input splits at every ASCII byte. *)
Lemma decode_ascii_split (b1 r : bytes) (a : byte) (s : pystr) :
  ord a < 0x80 ->
  decode (b1 ++ a :: r) = Some s ->
  exists s1 s2,
    decode b1 = Some s1 /\ decode r = Some s2 /\ s = s1 ++ ord a :: s2.
Proof.
  intros Ha. remember (length b1) as n eqn:Hn.
  revert b1 Hn s. induction n as [n IH] using lt_wf_ind. intros b1 -> s.
  destruct b1 as [|b l]; cbn [app].
  - rewrite decode_step, (decode_one_ascii a r Ha).
    destruct (decode r) as [s2|]; [|discriminate].
    intros [= <-]. exists [], s2. repeat split; reflexivity.
  - rewrite decode_step.
    destruct (decode_one (b :: l ++ a :: r)) as [[cp rest]|] eqn:E;
      [|discriminate].
    destruct (decode_one_local b a l r rest cp Ha E) as (l' & -> & El).
    destruct (decode (l' ++ a :: r)) as [s'|] eqn:D; [|discriminate].
    intros [= <-].
    pose proof (decode_one_shorter _ _ _ El) as Hlen.
    destruct (IH (length l') Hlen l' eq_refl s' D) as (s1 & s2 & H1 & H2 & ->).
    exists (cp :: s1), s2. split; [|split; [exact H2|reflexivity]].
    rewrite (decode_seq _ _ _ El), H1. reflexivity.
Qed.

Lemma decode_ascii_prefix (nb b2 : bytes) (t : pystr) :
  Forall (fun b => ord b < 0x80) nb ->
  decode (nb ++ b2) = Some t ->
  exists s2, t = map ord nb ++ s2.
Proof.
  intros H. revert t. induction H as [|a nb Ha _ IH]; intros t; cbn [app map].
  - intros _. exists t. reflexivity.
  - rewrite decode_step, (decode_one_ascii a _ Ha).
    destruct (decode (nb ++ b2)) as [t'|] eqn:D; [|discriminate].
    intros [= <-]. destruct (IH t' eq_refl) as [s2 ->].
    exists s2. reflexivity.
Qed.

(** In well-formed UTF-8, an ASCII word occurs in the decoded text exactly
    when its bytes occur in the input. *)
Lemma ascii_occurs_decoded (nb stdout : bytes) (dump : pystr) :
  nb <> [] ->
  Forall (fun b => ord b < 0x80) nb ->
  decode stdout = Some dump ->
  str_contains (map ord nb) dump = true <->
  exists before after, stdout = before ++ nb ++ after.
Proof.
  intros Hne Hascii Hdec. rewrite str_contains_spec. split.
  - intros (s1 & s2 & ->).
    apply encode_decode in Hdec. rewrite !encode_app in Hdec.
    rewrite (encode_ascii nb Hascii) in Hdec.
    destruct (encode s1) as [e1|]; [|discriminate Hdec].
    destruct (encode s2) as [e2|]; [|discriminate Hdec].
    injection Hdec as <-. exists e1, e2. reflexivity.
  - intros (b1 & b2 & ->).
    destruct nb as [|a nb]; [contradiction|].
    apply Forall_cons_iff in Hascii as [Ha Hrest].
    cbn [app] in Hdec.
    destruct (decode_ascii_split b1 (nb ++ b2) a dump Ha Hdec)
      as (s1 & t & _ & Ht & ->).
    destruct (decode_ascii_prefix nb b2 t Hrest Ht) as [s2 ->].
    exists s1, s2. reflexivity.
Qed.

(** X17: [has_debug] answers exactly when objdump ran, exited with status
    0 and printed well-formed UTF-8, and its answer is [True] exactly when
    the bytes of .debug_info occur in that output. *)
Theorem has_debug_iff_bytes (run : list string -> Z + Z * bytes) (w : World)
    (answer : bool) :
  has_debug run w = ProbeReturn answer <->
  exists stdout,
    run ["objdump"; "-x"; fspath (libpal_path w)] = inr (0, stdout) /\
    is_Some (decode stdout) /\
    (answer = true <->
     exists before after,
       stdout = before ++ String.list_byte_of_string ".debug_info" ++ after).
Proof.
  assert (Hword : forall stdout dump, decode stdout = Some dump ->
            str_contains (py_str ".debug_info") dump = true <->
            exists before after,
              stdout = before ++ String.list_byte_of_string ".debug_info"
                              ++ after).
  { intros stdout dump Hdec. apply ascii_occurs_decoded; [discriminate| |exact Hdec].
    repeat constructor; vm_compute; reflexivity. }
  unfold has_debug.
  destruct (run ["objdump"; "-x"; fspath (libpal_path w)])
    as [errno|[rc stdout]].
  - split; [discriminate | intros (? & H & _); discriminate H].
  - destruct (rc =? 0) eqn:Erc; range_hyps.
    + subst rc. destruct (decode stdout) as [dump|] eqn:Hdec.
      * split.
        -- intros [= <-]. exists stdout. split; [reflexivity|].
           split; [eexists; exact Hdec|]. apply (Hword stdout dump Hdec).
        -- intros (stdout' & [= <-] & _ & Hans). f_equal.
           apply Hword in Hdec.
           destruct answer, (str_contains (py_str ".debug_info") dump);
             try reflexivity.
           ++ apply (proj2 Hdec), (proj1 Hans). reflexivity.
           ++ symmetry. apply (proj2 Hans), (proj1 Hdec). reflexivity.
      * split; [discriminate|].
        intros (stdout' & [= <-] & [dump Hd] & _).
        rewrite Hdec in Hd. discriminate Hd.
    + split; [discriminate|].
      intros (stdout' & [= -> _] & _). contradiction.
Qed.

Lemma has_debug_iff_bytes_witness :
  has_debug
    (fun _ => inr (0, String.list_byte_of_string " 27 .debug_info   0003"))
    (says hello [] 0)
  = ProbeReturn true.
Proof.
  apply (proj2 (has_debug_iff_bytes
                  (fun _ => inr (0, String.list_byte_of_string
                                      " 27 .debug_info   0003"))
                  (says hello [] 0) true)).
  exists (String.list_byte_of_string " 27 .debug_info   0003").
  split; [reflexivity|]. split; [eexists; vm_compute; reflexivity|].
  split; [|reflexivity]. intros _.
  exists (String.list_byte_of_string " 27 "),
         (String.list_byte_of_string "   0003").
  reflexivity.
Defined.

(** X18: a debugger session that does not end within the bound is killed
    as a whole: gdb was started as the leader of its own process group,
    one [SIGKILL] goes to that group right after the wait timed out, and
    [run_gdb] fails with the timeout message of [run_binary], the bound
    being the larger of [DEFAULT_TIMEOUT] and the requested timeout. *)
Theorem gdb_timeout_kills_group (w : World) (args : list string)
    (gdb_script : string) (timeout : option Z) (kwds : gmap string KwVal)
    (p T : Z) :
  In (EvCommunicate p T TimeoutExpired)
     (events (run_gdb w args gdb_script timeout kwds)) ->
  T = match timeout with
      | Some t => Z.max (DEFAULT_TIMEOUT w) t
      | None => DEFAULT_TIMEOUT w
      end /\
  (exists argv kw,
     piped_group_leader kw /\
     events (run_gdb w args gdb_script timeout kwds)
     = [EvPopen argv kw (Child p); EvCommunicate p T TimeoutExpired;
        EvKillpg p SIGKILL; EvPopenExit p]) /\
  outcome (run_gdb w args gdb_script timeout kwds)
  = Raise (AssertionError ("timeout (" +:+ pretty T +:+ " s) expired")).
Proof.
  intros Hev.
  destruct (run_gdb_unfold w args gdb_script timeout kwds)
    as [(msg & Heq & _) | (_ & _ & env & _ & _ & _ & Heq)];
    rewrite Heq in *; [destruct Hev|].
  match goal with |- context [invoke w ?call] => set (c := call) in * end.
  by_supervision w c; event_cases.
  split; [reflexivity|]. split; [|reflexivity].
  eexists _, _. split; [eassumption | reflexivity].
Qed.

Lemma gdb_timeout_kills_group_witness :
  outcome (run_gdb sleeps_30 ["sleep"; "30"] "debug.gdb" (Some 15) ∅)
  = Raise (AssertionError "timeout (15 s) expired").
Proof.
  apply (gdb_timeout_kills_group
           sleeps_30 ["sleep"; "30"] "debug.gdb" (Some 15) ∅ 4242 15).
  right. left. reflexivity.
Defined.
